(** * BlogSpace: the data-access layer, the router and the home page

    A shallow embedding of [blog_app_supabase.py].  The remote store is
    kept as four tables of rows, every row a finite map from column
    names to values, exactly as the client hands them to Python as
    dicts.  A data-access function is a computation over a [world]
    (store, clock, pending store failures) that either returns or
    raises; [try_except] is Python's [try: ... except: ...]. *)

From Stdlib Require Import ZArith NArith List String Ascii Bool Lia.
From stdpp Require Import base option list gmap strings fin_maps.
Import ListNotations.

Local Open Scope Z_scope.
Local Open Scope string_scope.
Local Open Scope list_scope.

(** ** hashlib.sha256 *)

Module Sha256.

Local Open Scope N_scope.

Definition mask32 : N := 4294967295.
Definition w32 (x : N) : N := N.land x mask32.
Definition add32 (x y : N) : N := w32 (x + y).
Definition rotr (n x : N) : N :=
  N.lor (N.shiftr x n) (w32 (N.shiftl x (32 - n))).
Definition not32 (x : N) : N := N.lxor x mask32.

Definition ch (x y z : N) : N := N.lxor (N.land x y) (N.land (not32 x) z).
Definition maj (x y z : N) : N :=
  N.lxor (N.lxor (N.land x y) (N.land x z)) (N.land y z).
Definition bsig0 (x : N) : N := N.lxor (N.lxor (rotr 2 x) (rotr 13 x)) (rotr 22 x).
Definition bsig1 (x : N) : N := N.lxor (N.lxor (rotr 6 x) (rotr 11 x)) (rotr 25 x).
Definition ssig0 (x : N) : N := N.lxor (N.lxor (rotr 7 x) (rotr 18 x)) (N.shiftr x 3).
Definition ssig1 (x : N) : N := N.lxor (N.lxor (rotr 17 x) (rotr 19 x)) (N.shiftr x 10).

(** The round constants are the first 32 bits of the fractional parts
    of the cube roots of the first 64 primes, the initial hash value
    those of the square roots of the first 8. *)
Definition is_prime (n : N) : bool :=
  (1 <? n)
  && List.forallb (fun d => negb (n mod N.of_nat d =? 0))
                  (List.seq 2 (N.to_nat n - 2)).

Definition primes (n : nat) : list N :=
  List.firstn n (List.filter is_prime (List.map N.of_nat (List.seq 2 310))).

Fixpoint cube_root_bits (b : nat) (x r : N) : N :=
  match b with
  | O => r
  | S b' =>
      let r' := r + N.shiftl 1 (N.of_nat b') in
      cube_root_bits b' x (if r' * r' * r' <=? x then r' else r)
  end.

Definition cube_root (x : N) : N := cube_root_bits 40 x 0.

Definition K : list N :=
  List.map (fun p => w32 (cube_root (N.shiftl p 96))) (primes 64).

Definition H0 : list N :=
  List.map (fun p => w32 (N.sqrt (N.shiftl p 64))) (primes 8).

(** Message padding: a 1 bit, zeros up to 56 mod 64, the bit length
    on eight big-endian bytes. *)
Fixpoint be_bytes (n : nat) (x : N) : list N :=
  match n with
  | O => []
  | S n' => N.land (N.shiftr x (8 * N.of_nat n')) 255 :: be_bytes n' x
  end.

Definition pad (msg : list N) : list N :=
  let len := N.of_nat (List.length msg) in
  let zeros := N.to_nat ((119 - len mod 64) mod 64) in
  msg ++ 128 :: List.repeat 0 zeros ++ be_bytes 8 (8 * len).

Fixpoint words (fuel : nat) (bs : list N) : list N :=
  match fuel, bs with
  | S fuel', b0 :: b1 :: b2 :: b3 :: rest =>
      (N.shiftl b0 24 + N.shiftl b1 16 + N.shiftl b2 8 + b3) :: words fuel' rest
  | _, _ => []
  end.

(** The message schedule, extended from 16 to 64 words. *)
Fixpoint extend (n : nat) (w : list N) : list N :=
  match n with
  | O => w
  | S n' =>
      let t := List.length w in
      let at_ (k : nat) := List.nth (t - k) w 0 in
      extend n' (w ++ [add32 (add32 (ssig1 (at_ 2%nat)) (at_ 7%nat))
                             (add32 (ssig0 (at_ 15%nat)) (at_ 16%nat))])
  end.

Record regs := Regs { ra : N; rb : N; rc : N; rd : N; re : N; rf : N; rg : N; rh : N }.

Definition round (s : regs) (kw : N * N) : regs :=
  let t1 := add32 (add32 (add32 (rh s) (bsig1 (re s)))
                         (add32 (ch (re s) (rf s) (rg s)) (fst kw))) (snd kw) in
  let t2 := add32 (bsig0 (ra s)) (maj (ra s) (rb s) (rc s)) in
  Regs (add32 t1 t2) (ra s) (rb s) (rc s) (add32 (rd s) t1) (re s) (rf s) (rg s).

Definition of_list (h : list N) : regs :=
  let g (i : nat) := List.nth i h 0 in
  Regs (g 0%nat) (g 1%nat) (g 2%nat) (g 3%nat) (g 4%nat) (g 5%nat) (g 6%nat) (g 7%nat).

Definition to_list (s : regs) : list N :=
  [ra s; rb s; rc s; rd s; re s; rf s; rg s; rh s].

Definition compress (h : list N) (block : list N) : list N :=
  let w := extend 48 (words 16 block) in
  let s := List.fold_left round (List.combine K w) (of_list h) in
  List.map (fun p => add32 (fst p) (snd p)) (List.combine h (to_list s)).

Fixpoint blocks (fuel : nat) (bs : list N) (h : list N) : list N :=
  match fuel with
  | O => h
  | S fuel' =>
      match bs with
      | [] => h
      | _ => blocks fuel' (List.skipn 64 bs) (compress h (List.firstn 64 bs))
      end
  end.

Definition digest (msg : list N) : list N :=
  let p := pad msg in blocks (List.length p) p H0.

Definition hex_digit (d : N) : ascii :=
  if d <? 10 then ascii_of_N (48 + d) else ascii_of_N (87 + d).

Fixpoint hex_word (n : nat) (x : N) : string :=
  match n with
  | O => EmptyString
  | S n' => String (hex_digit (N.land (N.shiftr x (4 * N.of_nat n')) 15)) (hex_word n' x)
  end.

Definition bytes_of (s : string) : list N :=
  List.map N_of_ascii (list_ascii_of_string s).

Definition hexdigest (s : string) : string :=
  List.fold_right (fun w acc => String.append (hex_word 8 w) acc) EmptyString
                  (digest (bytes_of s)).

End Sha256.

(** [hash_password(password)]: the SHA-256 hex digest of the UTF-8
    bytes of the password. *)
Definition hash_password (password : string) : string :=
  Sha256.hexdigest password.

(** ** Values and rows

    A cell of a table holds SQL NULL, an integer or a text; a selected
    row may also carry an embedded resource (the [users(username)] of a
    select), which the client returns as a nested dict. *)

Inductive scalar : Type :=
  | Null
  | Int (n : Z)
  | Str (s : string).

Global Instance scalar_eq_dec : EqDecision scalar.
Proof. solve_decision. Defined.

Inductive value : Type :=
  | Val (x : scalar)
  | Obj (o : gmap string scalar).

Global Instance value_eq_dec : EqDecision value.
Proof. solve_decision. Defined.

Abbreviation row := (gmap string value).

(** The cell of a row under a column; a column the row does not list
    reads as NULL. *)
Definition cell (r : row) (c : string) : value := default (Val Null) (r !! c).

(** Python's exceptions, as far as this program can meet them.  All
    derive from [Exception] but [RerunException], which [st.rerun()]
    raises to end the run of the script. *)
Inductive exn : Type :=
  | HTTPError                  (* the request did not reach the store *)
  | APIError (code : string)   (* the store refused the request *)
  | TypeError
  | AttributeError
  | KeyError (k : string)
  | IndexError
  | RerunException.

Definition is_Exception (e : exn) : bool :=
  match e with
  | RerunException => false
  | _ => true
  end.

(** What can go wrong with a request for a reason outside the rows. *)
Inductive fault : Type :=
  | Unreachable                (* network error, timeout *)
  | Refused (code : string).   (* permissions, a constraint, bad input *)

Definition exn_of_fault (f : fault) : exn :=
  match f with
  | Unreachable => HTTPError
  | Refused code => APIError code
  end.

(** ** The store *)

Record db : Type := Db {
  users : list row;
  posts : list row;
  comments : list row;
  likes : list row;
  seq : Z                      (* the next id the store generates *)
}.

(** ** Session state and the page *)

Record session : Type := Session {
  logged_in : bool;
  user_id : value;
  username : value;
  email : value;
  page : string;
  selected_post_id : value;
  search_query : string;
  selected_category : string;
  new_post_id : value
}.

(** The initial session state. *)
Definition initial_session : session :=
  Session false (Val Null) (Val Null) (Val Null) "home" (Val Null) "" "All" (Val Null).

(** What the visitor did before this run of the script: the text typed
    in each text input and the option chosen in each select box, by
    label, and the buttons pressed, by key. *)
Record gestures : Type := Gestures {
  typed : gmap string string;
  chosen : gmap string string;
  pressed : list (string * value)
}.

(** The elements a run puts on the page. *)
Inductive element : Type :=
  | Title (s : string)
  | Markdown (s : string)
  | Divider
  | Info (s : string)
  | Warning (s : string)
  | Card_open
  | Card_close
  | Text_input (label : string)
  | Selectbox (label : string) (options : list string)
  | Button (label : value) (key : string * value)
  | Badge (class : string) (category : value)
  | Byline (author created : value)
  | Write (v : value)
  | Views (n : value)
  | Likes (n : option Z)
  | Comments (n : option Z).

(** The world of a run: the store, the readings the clock will give, for
    each coming request whether it fails for a reason outside the rows
    and how, the session state, the visitor's gestures and the page
    rendered so far. *)
Record world : Type := World {
  store : db;
  clock : list Z;
  faults : list (option fault);
  session_state : session;
  visitor : gestures;
  rendered : list element
}.

Definition get_table (t : string) (d : db) : option (list row) :=
  if String.eqb t "users" then Some (users d)
  else if String.eqb t "posts" then Some (posts d)
  else if String.eqb t "comments" then Some (comments d)
  else if String.eqb t "likes" then Some (likes d)
  else None.

Definition set_table (t : string) (rows : list row) (d : db) : db :=
  if String.eqb t "users" then Db rows (posts d) (comments d) (likes d) (seq d)
  else if String.eqb t "posts" then Db (users d) rows (comments d) (likes d) (seq d)
  else if String.eqb t "comments" then Db (users d) (posts d) rows (likes d) (seq d)
  else if String.eqb t "likes" then Db (users d) (posts d) (comments d) rows (seq d)
  else d.

Definition advance_seq (k : Z) (d : db) : db :=
  Db (users d) (posts d) (comments d) (likes d) (seq d + k).

Definition bump_seq (d : db) : db := advance_seq 1 d.

(** ** Computations that may raise *)

Definition M (A : Type) : Type := world -> (exn + A) * world.

Definition ret {A} (x : A) : M A := fun w => (inr x, w).

Definition bind {A B} (m : M A) (k : A -> M B) : M B :=
  fun w => match m w with
           | (inr x, w') => k x w'
           | (inl e, w') => (inl e, w')
           end.

Definition raise {A} (e : exn) : M A := fun w => (inl e, w).

(** [try: body / except: handler], which catches everything, and
    [try: body / except Exception as e: handler], which lets
    [RerunException] through. *)
Definition try_except {A} (body : M A) (handler : exn -> M A) : M A :=
  fun w => match body w with
           | (inl e, w') => handler e w'
           | r => r
           end.

Definition try_except_Exception {A} (body : M A) (handler : exn -> M A) : M A :=
  fun w => match body w with
           | (inl e, w') => if is_Exception e then handler e w' else (inl e, w')
           | r => r
           end.

Declare Scope py_scope.
Delimit Scope py_scope with py.
Notation "x <- m ;; k" := (bind m (fun x => k))
  (at level 20, m at level 99, k at level 200, only parsing) : py_scope.
Notation "m ;; k" := (bind m (fun _ => k))
  (at level 100, k at level 200, right associativity, only parsing) : py_scope.
Open Scope py_scope.

Definition with_store (d : db) (w : world) : world :=
  World d (clock w) (faults w) (session_state w) (visitor w) (rendered w).

Definition get_db : M db := fun w => (inr (store w), w).
Definition put_db (d : db) : M unit := fun w => (inr tt, with_store d w).

(** [datetime.now()]: the next reading of the clock. *)
Definition datetime_now : M Z :=
  fun w => (inr (hd 0 (clock w)),
            World (store w) (tl (clock w)) (faults w) (session_state w) (visitor w) (rendered w)).

(** Every request first meets the failure, if any, that awaits it. *)
Definition pop (w : world) : world :=
  World (store w) (clock w) (tl (faults w)) (session_state w) (visitor w) (rendered w).

Definition request : M unit :=
  fun w => match hd None (faults w) with
           | Some f => (inl (exn_of_fault f), pop w)
           | None => (inr tt, pop w)
           end.

(** ** The query builder

    The store is a service the program reaches through its client.  A
    request names a table and a verb, narrows the rows with equality
    filters, may ask for an order and an exact count, and is sent by
    [execute]: table-level insert, select, update and delete, as the
    client's contract has them. *)

Inductive column : Type :=
  | Col (c : string)
  | Embed (t : string) (cs : list string).

Inductive cond : Type :=
  | Eq (c : string) (x : value)
  | Is_null (c : string).

Inductive verb : Type :=
  | Select (cols : list column) (exact : bool)
  | Insert (r : row)
  | Insert_many (rs : list row)
  | Update (patch : row)
  | Delete.

Record query : Type := Query {
  q_table : string;
  q_verb : verb;
  q_conds : list cond;
  q_order : option (string * bool)   (* column, ascending *)
}.

Record response : Type := Response {
  data : list row;
  count : option Z
}.

Definition table (t : string) : string := t.
Definition select (cols : list column) (t : string) : query :=
  Query t (Select cols false) [] None.
Definition select_count (cols : list column) (t : string) : query :=
  Query t (Select cols true) [] None.
Definition insert (r : row) (t : string) : query := Query t (Insert r) [] None.
Definition insert_many (rs : list row) (t : string) : query :=
  Query t (Insert_many rs) [] None.
Definition update (patch : row) (t : string) : query := Query t (Update patch) [] None.
Definition delete (t : string) : query := Query t Delete [] None.
Definition eq (c : string) (x : value) (q : query) : query :=
  Query (q_table q) (q_verb q) (q_conds q ++ [Eq c x]) (q_order q).
Definition is_null (c : string) (q : query) : query :=
  Query (q_table q) (q_verb q) (q_conds q ++ [Is_null c]) (q_order q).
Definition order (c : string) (ascending : bool) (q : query) : query :=
  Query (q_table q) (q_verb q) (q_conds q) (Some (c, ascending)).

Notation "x |> f" := (f x) (at level 59, left associativity, only parsing).

(** *** Filters *)

Definition holds (r : row) (k : cond) : bool :=
  match k with
  | Eq c (Val Null) => false
  | Eq c x => bool_decide (cell r c = x)
  | Is_null c => bool_decide (cell r c = Val Null)
  end.

Definition matches (ks : list cond) (r : row) : bool := forallb (holds r) ks.

(** *** Ordering

    Integers by value, texts as strings, integers before texts; NULLs
    last in either direction, the client's default. *)

Definition value_leb (x y : value) : bool :=
  match x, y with
  | Val (Int a), Val (Int b) => (a <=? b)%Z
  | Val (Str a), Val (Str b) => String.leb a b
  | Val (Int _), Val (Str _) => true
  | Val (Str _), Val (Int _) => false
  | _, Obj _ => true
  | Obj _, _ => false
  | _, Val Null => true
  | Val Null, _ => false
  end.

Definition comes_before (ascending : bool) (x y : value) : bool :=
  match x, y with
  | _, Val Null => true
  | Val Null, _ => false
  | _, _ => if ascending then value_leb x y else value_leb y x
  end.

Fixpoint insert_sorted (le : row -> row -> bool) (r : row) (rs : list row) : list row :=
  match rs with
  | [] => [r]
  | r' :: rest => if le r r' then r :: rs else r' :: insert_sorted le r rest
  end.

Definition sort_rows (le : row -> row -> bool) (rs : list row) : list row :=
  fold_right (insert_sorted le) [] rs.

Definition ordered (o : option (string * bool)) (rs : list row) : list row :=
  match o with
  | None => rs
  | Some (c, ascending) =>
      sort_rows (fun a b => comes_before ascending (cell a c) (cell b c)) rs
  end.

(** *** Embedded resources

    Modelled from the spec: the schema is not part of the program; the
    relationships of its data model (a post, a comment and a like belong
    to one user; a comment and a like belong to one post) give the
    foreign keys along which a select may embed. *)
Definition references : list (string * (string * string)) :=
  [ ("posts", ("user_id", "users"));
    ("comments", ("post_id", "posts"));
    ("comments", ("user_id", "users"));
    ("likes", ("post_id", "posts"));
    ("likes", ("user_id", "users")) ].

Definition foreign_key (child parent : string) : option string :=
  option_map (fun x => fst (snd x))
    (List.find (fun x => String.eqb (fst x) child && String.eqb (snd (snd x)) parent)
               references).

Definition valid_column (child : string) (c : column) : bool :=
  match c with
  | Col _ => true
  | Embed t _ => match foreign_key child t with Some _ => true | None => false end
  end.

Definition scalar_of (v : value) : scalar :=
  match v with Val x => x | Obj _ => Null end.

Definition embed (d : db) (child t : string) (cs : list string) (r : row) : value :=
  match foreign_key child t, get_table t d with
  | Some fk, Some rows =>
      match List.find (fun p => bool_decide (cell p "id" = cell r fk)
                                && negb (bool_decide (cell r fk = Val Null))) rows with
      | Some p => Obj (list_to_map (map (fun k => (k, scalar_of (cell p k))) cs))
      | None => Val Null
      end
  | _, _ => Val Null
  end.

Definition project (d : db) (child : string) (cols : list column) (r : row) : row :=
  list_to_map
    (map (fun c => match c with
                   | Col c => (c, cell r c)
                   | Embed t cs => (t, embed d child t cs r)
                   end) cols).

(** *** Constraints

    Modelled from the spec: the schema is not part of the program; the
    data model gives the username as the one unique column, and ids are
    generated by the store. *)
Definition violates_unique (t : string) (r : row) (rows : list row) : bool :=
  String.eqb t "users"
  && negb (bool_decide (cell r "username" = Val Null))
  && existsb (fun u => bool_decide (cell u "username" = cell r "username")) rows.

(** *** [execute] *)

Definition run_select (q : query) (cols : list column) (exact : bool)
    (d : db) (rows : list row) : M response :=
  if forallb (valid_column (q_table q)) cols then
    let hit := ordered (q_order q) (List.filter (matches (q_conds q)) rows) in
    ret (Response (map (project d (q_table q) cols) hit)
                  (if exact then Some (Z.of_nat (length hit)) else None))
  else raise (APIError "PGRST200").

Definition run_insert (q : query) (r : row) (d : db) (rows : list row) : M response :=
  if violates_unique (q_table q) r rows then raise (APIError "23505")
  else
    let r' := <["id" := Val (Int (seq d))]> r in
    put_db (bump_seq (set_table (q_table q) (rows ++ [r']) d));;
    ret (Response [r'] None).

(** A list of rows is inserted as a whole or not at all. *)
Fixpoint place (t : string) (n : Z) (rs rows : list row) : option (list row * list row) :=
  match rs with
  | [] => Some (rows, [])
  | r :: rest =>
      if violates_unique t r rows then None
      else
        let r' := <["id" := Val (Int n)]> r in
        match place t (n + 1) rest (rows ++ [r']) with
        | Some (rows', new) => Some (rows', r' :: new)
        | None => None
        end
  end.

Definition run_insert_many (q : query) (rs : list row) (d : db) (rows : list row)
    : M response :=
  match place (q_table q) (seq d) rs rows with
  | None => raise (APIError "23505")
  | Some (rows', new) =>
      put_db (advance_seq (Z.of_nat (length rs)) (set_table (q_table q) rows' d));;
      ret (Response new None)
  end.

Definition run_update (q : query) (patch : row) (d : db) (rows : list row) : M response :=
  let hit := matches (q_conds q) in
  put_db (set_table (q_table q)
            (map (fun r => if hit r then patch ∪ r else r) rows) d);;
  ret (Response (map (fun r => patch ∪ r) (List.filter hit rows)) None).

Definition run_delete (q : query) (d : db) (rows : list row) : M response :=
  let hit := matches (q_conds q) in
  put_db (set_table (q_table q) (List.filter (fun r => negb (hit r)) rows) d);;
  ret (Response (List.filter hit rows) None).

Definition execute (q : query) : M response :=
  request;;
  d <- get_db;;
  match get_table (q_table q) d with
  | None => raise (APIError "42P01")
  | Some rows =>
      match q_verb q with
      | Select cols exact => run_select q cols exact d rows
      | Insert r => run_insert q r d rows
      | Insert_many rs => run_insert_many q rs d rows
      | Update patch => run_update q patch d rows
      | Delete => run_delete q d rows
      end
  end.

(** ** Python values at work *)

Definition dict (kvs : list (string * value)) : row := list_to_map kvs.

(** [r[k]] *)
Definition getitem (r : row) (k : string) : M value :=
  match r !! k with
  | Some v => ret v
  | None => raise (KeyError k)
  end.

(** [l[i]] *)
Definition index {A} (l : list A) (i : nat) : M A :=
  match nth_error l i with
  | Some x => ret x
  | None => raise IndexError
  end.

(** [[f(x) for x in l]] *)
Fixpoint map_m {A B} (f : A -> M B) (l : list A) : M (list B) :=
  match l with
  | [] => ret []
  | x :: rest => y <- f x;; ys <- map_m f rest;; ret (y :: ys)
  end.

(** [v + n] for an integer [n] *)
Definition py_add (v : value) (n : Z) : M value :=
  match v with
  | Val (Int a) => ret (Val (Int (a + n)))
  | _ => raise TypeError
  end.

(** [datetime.now().isoformat()]: a timestamp is kept as the reading of
    the clock, of which the ISO text is the print. *)
Definition isoformat (t : Z) : value := Val (Int t).

(** ** Database functions *)

Definition create_user (username email password bio : string) : M bool :=
  try_except_Exception
    (let hashed_pw := hash_password password in
     now <- datetime_now;;
     response <- table "users"
       |> insert (dict [ ("username", Val (Str username));
                         ("email", Val (Str email));
                         ("password", Val (Str hashed_pw));
                         ("bio", Val (Str bio));
                         ("created_at", isoformat now) ])
       |> execute;;
     ret true)
    (fun e => ret false).

Definition authenticate_user (username password : string) : M (option row) :=
  try_except_Exception
    (let hashed_pw := hash_password password in
     response <- table "users"
       |> select [Col "id"; Col "username"; Col "email"]
       |> eq "username" (Val (Str username))
       |> eq "password" (Val (Str hashed_pw))
       |> execute;;
     match data response with
     | r :: _ => ret (Some r)
     | [] => ret None
     end)
    (fun e => ret None).

Definition get_user_by_id (user_id : value) : M (option row) :=
  try_except_Exception
    (response <- table "users"
       |> select [Col "id"; Col "username"; Col "email"; Col "bio"; Col "created_at"]
       |> eq "id" user_id
       |> execute;;
     match data response with
     | r :: _ => ret (Some r)
     | [] => ret None
     end)
    (fun e => ret None).

Definition update_user_profile (user_id : value) (email bio : string) : M bool :=
  try_except_Exception
    (response <- table "users"
       |> update (dict [ ("email", Val (Str email)); ("bio", Val (Str bio)) ])
       |> eq "id" user_id
       |> execute;;
     ret true)
    (fun e => ret false).

Definition change_password (user_id : value) (old_password new_password : string) : M bool :=
  try_except_Exception
    (user <- get_user_by_id user_id;;
     let old_hashed := hash_password old_password in
     let new_hashed := hash_password new_password in
     (* Verify old password *)
     response <- table "users"
       |> select [Col "password"]
       |> eq "id" user_id
       |> execute;;
     match data response with
     | r :: _ =>
         stored <- getitem r "password";;
         if bool_decide (stored = Val (Str old_hashed)) then
           table "users"
             |> update (dict [ ("password", Val (Str new_hashed)) ])
             |> eq "id" user_id
             |> execute;;
           ret true
         else ret false
     | [] => ret false
     end)
    (fun e => ret false).

Definition post_columns : list column :=
  [ Col "id"; Col "user_id"; Col "title"; Col "content"; Col "category";
    Col "views"; Col "created_at"; Embed "users" ["username"] ].

Definition create_post (user_id : value) (title content category : string) : M (option value) :=
  try_except_Exception
    (created <- datetime_now;;
     updated <- datetime_now;;
     response <- table "posts"
       |> insert (dict [ ("user_id", user_id);
                         ("title", Val (Str title));
                         ("content", Val (Str content));
                         ("category", Val (Str category));
                         ("views", Val (Int 0));
                         ("created_at", isoformat created);
                         ("updated_at", isoformat updated) ])
       |> execute;;
     match data response with
     | r :: _ => id <- getitem r "id";; ret (Some id)
     | [] => ret None
     end)
    (fun e => ret None).

Definition get_all_posts : M (list row) :=
  try_except_Exception
    (response <- table "posts"
       |> select post_columns
       |> order "created_at" false
       |> execute;;
     ret (data response))
    (fun e => ret []).

Definition get_post_by_id (post_id : value) : M (option row) :=
  try_except_Exception
    (response <- table "posts"
       |> select post_columns
       |> eq "id" post_id
       |> execute;;
     match data response with
     | r :: _ => ret (Some r)
     | [] => ret None
     end)
    (fun e => ret None).

Definition get_user_posts (user_id : value) : M (list row) :=
  try_except_Exception
    (response <- table "posts"
       |> select [ Col "id"; Col "title"; Col "content"; Col "category";
                   Col "views"; Col "created_at"; Embed "users" ["username"] ]
       |> eq "user_id" user_id
       |> order "created_at" false
       |> execute;;
     ret (data response))
    (fun e => ret []).

Definition update_post (post_id : value) (title content category : string) : M bool :=
  try_except_Exception
    (now <- datetime_now;;
     response <- table "posts"
       |> update (dict [ ("title", Val (Str title));
                         ("content", Val (Str content));
                         ("category", Val (Str category));
                         ("updated_at", isoformat now) ])
       |> eq "id" post_id
       |> execute;;
     ret true)
    (fun e => ret false).

Definition delete_post (post_id : value) : M bool :=
  try_except_Exception
    ((* Delete comments first *)
     table "comments" |> delete |> eq "post_id" post_id |> execute;;
     (* Delete likes *)
     table "likes" |> delete |> eq "post_id" post_id |> execute;;
     (* Delete post *)
     table "posts" |> delete |> eq "id" post_id |> execute;;
     ret true)
    (fun e => ret false).

Definition increment_view_count (post_id : value) : M unit :=
  try_except
    (response <- table "posts"
       |> select [Col "views"]
       |> eq "id" post_id
       |> execute;;
     match data response with
     | r :: _ =>
         current_views <- getitem r "views";;
         views <- py_add current_views 1;;
         table "posts"
           |> update (dict [ ("views", views) ])
           |> eq "id" post_id
           |> execute;;
         ret tt
     | [] => ret tt
     end)
    (fun e => ret tt).

Definition add_comment (post_id user_id : value) (content : string)
    (parent_id : value) : M (option value) :=
  try_except_Exception
    (now <- datetime_now;;
     response <- table "comments"
       |> insert (dict [ ("post_id", post_id);
                         ("user_id", user_id);
                         ("content", Val (Str content));
                         ("parent_id", parent_id);
                         ("created_at", isoformat now) ])
       |> execute;;
     match data response with
     | r :: _ => id <- getitem r "id";; ret (Some id)
     | [] => ret None
     end)
    (fun e => ret None).

Definition get_comments (post_id : value) : M (list row) :=
  try_except_Exception
    (response <- table "comments"
       |> select [ Col "id"; Col "user_id"; Col "content"; Col "created_at";
                   Col "parent_id"; Embed "users" ["username"] ]
       |> eq "post_id" post_id
       |> order "created_at" true
       |> execute;;
     ret (data response))
    (fun e => ret []).

Definition add_like (post_id user_id : value) : M bool :=
  try_except_Exception
    (now <- datetime_now;;
     response <- table "likes"
       |> insert (dict [ ("post_id", post_id);
                         ("user_id", user_id);
                         ("created_at", isoformat now) ])
       |> execute;;
     ret true)
    (fun e => ret false).

Definition remove_like (post_id user_id : value) : M bool :=
  try_except_Exception
    (table "likes"
       |> delete
       |> eq "post_id" post_id
       |> eq "user_id" user_id
       |> execute;;
     ret true)
    (fun e => ret false).

Definition get_like_count (post_id : value) : M (option Z) :=
  try_except
    (response <- table "likes"
       |> select_count [Col "id"]
       |> eq "post_id" post_id
       |> execute;;
     ret (count response))
    (fun e => ret (Some 0)).

Definition check_user_liked (post_id user_id : value) : M bool :=
  try_except
    (response <- table "likes"
       |> select [Col "id"]
       |> eq "post_id" post_id
       |> eq "user_id" user_id
       |> execute;;
     ret (0 <? length (data response))%nat)
    (fun e => ret false).

Definition get_comment_count (post_id : value) : M (option Z) :=
  try_except
    (response <- table "comments"
       |> select_count [Col "id"]
       |> eq "post_id" post_id
       |> is_null "parent_id"
       |> execute;;
     ret (count response))
    (fun e => ret (Some 0)).

Definition get_total_users : M (option Z) :=
  try_except
    (response <- table "users" |> select_count [Col "id"] |> execute;;
     ret (count response))
    (fun e => ret (Some 0)).

Definition get_total_posts : M (option Z) :=
  try_except
    (response <- table "posts" |> select_count [Col "id"] |> execute;;
     ret (count response))
    (fun e => ret (Some 0)).


Definition sample_user (username email bio : string) : M row :=
  now <- datetime_now;;
  ret (dict [ ("username", Val (Str username));
              ("email", Val (Str email));
              ("password", Val (Str (hash_password "password123")));
              ("bio", Val (Str bio));
              ("created_at", isoformat now) ]).

Definition sample_post (user_ids : list value) (i : nat) (title content category : string)
    : M row :=
  user_id <- index user_ids i;;
  created <- datetime_now;;
  updated <- datetime_now;;
  ret (dict [ ("user_id", user_id);
              ("title", Val (Str title));
              ("content", Val (Str content));
              ("category", Val (Str category));
              ("views", Val (Int 0));
              ("created_at", isoformat created);
              ("updated_at", isoformat updated) ]).

Definition add_sample_data : M unit :=
  try_except_Exception
    ((* Check if sample data already exists *)
     users_response <- table "users" |> select [Col "id"] |> execute;;
     if (0 <? length (data users_response))%nat then ret tt
     else
       (* Add sample users *)
       u1 <- sample_user "john_doe" "john@example.com" "Tech enthusiast and blogger";;
       u2 <- sample_user "jane_smith" "jane@example.com" "Travel writer and photographer";;
       u3 <- sample_user "alex_coding" "alex@example.com"
               "Software engineer and open source contributor";;
       table "users" |> insert_many [u1; u2; u3] |> execute;;
       (* Get user IDs *)
       users_data <- table "users" |> select [Col "id"] |> execute;;
       user_ids <- map_m (fun u => getitem u "id") (data users_data);;
       (* Add sample posts *)
       p1 <- sample_post user_ids 0 "Getting Started with Streamlit"
               "Streamlit is an amazing framework for building data apps quickly. In this post, I'll explore the basics and best practices."
               "Technology";;
       p2 <- sample_post user_ids 1 "Top 10 Travel Destinations in 2025"
               "Planning your next adventure? Check out these incredible destinations that are perfect for 2025."
               "Travel";;
       p3 <- sample_post user_ids 0 "Python Tips and Tricks"
               "Discover some lesser-known Python features that can make your code more efficient and elegant."
               "Technology";;
       p4 <- sample_post user_ids 2 "Open Source Contribution Guide"
               "Contributing to open source projects can be intimidating at first. Here's a beginner-friendly guide to get started."
               "Technology";;
       p5 <- sample_post user_ids 1 "The Ultimate Food Guide to Tokyo"
               "Tokyo is a foodie's paradise. Let me take you through the best restaurants and street food spots I discovered."
               "Food";;
       table "posts" |> insert_many [p1; p2; p3; p4; p5] |> execute;;
       ret tt)
    (fun e => ret tt).

(** ** The Streamlit calls *)

Definition get_session : M session := fun w => (inr (session_state w), w).

Definition put_session (s : session) : M unit :=
  fun w => (inr tt, World (store w) (clock w) (faults w) s (visitor w) (rendered w)).

Definition set_page (p : string) : M unit :=
  s <- get_session;;
  put_session (Session (logged_in s) (user_id s) (username s) (email s) p
                       (selected_post_id s) (search_query s) (selected_category s)
                       (new_post_id s)).

Definition set_selected_post_id (v : value) : M unit :=
  s <- get_session;;
  put_session (Session (logged_in s) (user_id s) (username s) (email s) (page s)
                       v (search_query s) (selected_category s) (new_post_id s)).

Definition emit (e : element) : M unit :=
  fun w => (inr tt, World (store w) (clock w) (faults w) (session_state w) (visitor w)
                          (rendered w ++ [e])).

Definition get_gestures : M gestures := fun w => (inr (visitor w), w).

Definition typed_in (g : gestures) (label : string) : string :=
  default "" (typed g !! label).

Definition chosen_in (g : gestures) (label : string) (options : list string) : string :=
  match chosen g !! label with
  | Some o => if bool_decide (o ∈ options) then o else hd "" options
  | None => hd "" options
  end.

Definition text_input (label : string) : M string :=
  emit (Text_input label);;
  g <- get_gestures;;
  ret (typed_in g label).

Definition selectbox (label : string) (options : list string) : M string :=
  emit (Selectbox label options);;
  g <- get_gestures;;
  ret (chosen_in g label options).

Definition button (label : value) (key : string * value) : M bool :=
  emit (Button label key);;
  g <- get_gestures;;
  ret (bool_decide (key ∈ pressed g)).

(** [st.rerun()] *)
Definition rerun {A} : M A := raise RerunException.

(** ** Helper functions *)

Definition get_category_class (category : value) : string :=
  match category with
  | Val (Str c) =>
      if String.eqb c "Technology" then "tech-badge"
      else if String.eqb c "Lifestyle" then "lifestyle-badge"
      else if String.eqb c "Travel" then "travel-badge"
      else if String.eqb c "Food" then "food-badge"
      else if String.eqb c "Health" then "health-badge"
      else if String.eqb c "Entertainment" then "entertainment-badge"
      else if String.eqb c "Education" then "education-badge"
      else if String.eqb c "Business" then "business-badge"
      else if String.eqb c "Science" then "science-badge"
      else "other-badge"
  | _ => "other-badge"
  end.

(** [get_excerpt(content, length)]; [len] raises on what has no length. *)
Definition get_excerpt (content : value) (length : nat) : M value :=
  match content with
  | Val (Str s) =>
      if (length <? String.length s)%nat
      then ret (Val (Str (String.substring 0 length s ++ "...")))
      else ret content
  | Obj o => if (length <? size o)%nat then raise TypeError else ret content
  | _ => raise TypeError
  end.

(** [get_author_name(user_obj)]; the [str()] of what is no dict with a
    username is left to the renderer. *)
Definition get_author_name (user_obj : value) : value :=
  match user_obj with
  | Obj o => match o !! "username" with
             | Some u => Val u
             | None => user_obj
             end
  | _ => user_obj
  end.

(** [needle in hay] on texts *)
Fixpoint contains (needle hay : string) : bool :=
  String.prefix needle hay
  || match hay with
     | EmptyString => false
     | String _ rest => contains needle rest
     end.

Fixpoint filter_m {A} (keep : A -> M bool) (l : list A) : M (list A) :=
  match l with
  | [] => ret []
  | x :: rest =>
      b <- keep x;;
      rest' <- filter_m keep rest;;
      ret (if b then x :: rest' else rest')
  end.

Fixpoint for_each {A} (l : list A) (body : A -> M unit) : M unit :=
  match l with
  | [] => ret tt
  | x :: rest => body x;; for_each rest body
  end.

(** ** Pages *)

Definition categories : list string :=
  [ "All"; "Technology"; "Lifestyle"; "Travel"; "Food"; "Health";
    "Entertainment"; "Education"; "Business"; "Science"; "Other" ].

Section Pages.

(** [str.lower], a builtin. *)
Variable str_lower : string -> string.

(** [v.lower()] *)
Definition lower (v : value) : M string :=
  match v with
  | Val (Str s) => ret (str_lower s)
  | _ => raise AttributeError
  end.

Definition search_hit (search_lower : string) (p : row) : M bool :=
  title <- getitem p "title";;
  title_lower <- lower title;;
  if contains search_lower title_lower then ret true
  else
    content <- getitem p "content";;
    content_lower <- lower content;;
    ret (contains search_lower content_lower).

Definition category_hit (category : string) (p : row) : M bool :=
  c <- getitem p "category";;
  ret (bool_decide (c = Val (Str category))).

Definition home_card (post : row) : M unit :=
  post_id <- getitem post "id";;
  title <- getitem post "title";;
  content <- getitem post "content";;
  cat <- getitem post "category";;
  views <- getitem post "views";;
  created <- getitem post "created_at";;
  users <- getitem post "users";;
  let author := get_author_name users in
  emit Card_open;;
  clicked <- button title ("home_post", post_id);;
  (if clicked : bool then
     set_selected_post_id post_id;;
     set_page "view_post";;
     rerun
   else ret tt);;
  emit (Badge (get_category_class cat) cat);;
  emit (Byline author created);;
  excerpt <- get_excerpt content 200;;
  emit (Write excerpt);;
  emit (Views views);;
  likes <- get_like_count post_id;;
  emit (Likes likes);;
  replies <- get_comment_count post_id;;
  emit (Comments replies);;
  emit Card_close.

Definition page_home : M unit :=
  emit (Title "📝 BlogSpace");;
  emit (Markdown "*A community platform for writers and readers*");;
  emit Divider;;
  search <- text_input "🔍 Search posts...";;
  category <- selectbox "Filter by category" categories;;
  emit Divider;;
  posts <- get_all_posts;;
  posts <- (if negb (String.eqb search "") then
              let search_lower := str_lower search in
              filter_m (search_hit search_lower) posts
            else ret posts);;
  posts <- (if negb (String.eqb category "All") then
              filter_m (category_hit category) posts
            else ret posts);;
  match posts with
  | [] => emit (Info "No posts found. Be the first to create one! ✍️")
  | _ => for_each (firstn 10 posts) home_card
  end.

(** The other page controllers. *)
Variables page_browse page_create page_view_post page_my_posts
          page_edit_post page_profile page_auth : M unit.

Definition main : M unit :=
  s <- get_session;;
  (if negb (logged_in s)
      && negb (bool_decide (page s ∈ ["home"; "browse"; "auth"]))
   then set_page "home" else ret tt);;
  s <- get_session;;
  if String.eqb (page s) "home" then page_home
  else if String.eqb (page s) "browse" then page_browse
  else if String.eqb (page s) "create" then
    if logged_in s then page_create
    else
      emit (Warning "Please log in to create a post");;
      go <- button (Val (Str "Go to Login")) ("Go to Login", Val Null);;
      if go : bool then set_page "auth";; rerun else ret tt
  else if String.eqb (page s) "view_post" then page_view_post
  else if String.eqb (page s) "my_posts" then
    if logged_in s then page_my_posts
    else emit (Warning "Please log in to view your posts")
  else if String.eqb (page s) "edit_post" then
    if logged_in s then page_edit_post
    else emit (Warning "Please log in to edit posts")
  else if String.eqb (page s) "profile" then
    if logged_in s then page_profile
    else emit (Warning "Please log in to view your profile")
  else if String.eqb (page s) "auth" then page_auth
  else ret tt.

End Pages.

(** ** Running *)

Definition run {A} (m : M A) (w : world) : exn + A := fst (m w).
Definition after {A} (m : M A) (w : world) : world := snd (m w).

Definition no_gestures : gestures := Gestures ∅ ∅ [].
Definition empty_db : db := Db [] [] [] [] 1.

(** A world in which no request fails for an outside reason. *)
Definition quiet (d : db) : world := World d [] [] initial_session no_gestures [].

(** ** Vocabulary of the properties *)

(** The next request meets no failure from outside; none of the coming
    requests does. *)
Definition calm (w : world) : Prop := hd None (faults w) = None.
Definition undisturbed (w : world) : Prop := Forall (fun f => f = None) (faults w).

(** A comment of the post that answers no other comment. *)
Definition root_comment_of (post_id : value) (r : row) : bool :=
  bool_decide (cell r "post_id" = post_id)
  && bool_decide (cell r "parent_id" = Val Null).

(** [m] done [n] times in a row. *)
Fixpoint times (n : nat) (m : M unit) : M unit :=
  match n with
  | O => ret tt
  | S n' => m;; times n' m
  end.

(** The post [post_id] is in the store, with [v] views. *)
Definition has_views (d : db) (post_id : value) (v : Z) : Prop :=
  (exists p, In p (posts d) /\ cell p "id" = post_id)
  /\ forall p, In p (posts d) -> cell p "id" = post_id -> cell p "views" = Val (Int v).

(** The row [create_user] asks the store to keep, with its id. *)
Definition new_user (username email password bio : string) (w : world) : row :=
  <["id" := Val (Int (seq (store w)))]>
    (dict [ ("username", Val (Str username));
            ("email", Val (Str email));
            ("password", Val (Str (hash_password password)));
            ("bio", Val (Str bio));
            ("created_at", isoformat (hd 0 (clock w))) ]).

(** The user [user_id] is in the store, with the password hash [h]. *)
Definition has_password (d : db) (user_id : value) (h : string) : Prop :=
  (exists u, In u (users d) /\ cell u "id" = user_id)
  /\ forall u, In u (users d) -> cell u "id" = user_id -> cell u "password" = Val (Str h).

(** The likes of a post; a like of a post by a user. *)
Definition like_of_post (post_id : value) (l : row) : bool :=
  bool_decide (cell l "post_id" = post_id).

Definition like_by (post_id user_id : value) (l : row) : bool :=
  bool_decide (cell l "post_id" = post_id) && bool_decide (cell l "user_id" = user_id).

Definition likes_of (d : db) (post_id : value) : list row :=
  List.filter (like_of_post post_id) (likes d).

(** The row [add_like] asks the store to keep, with its id. *)
Definition new_like (post_id user_id : value) (w : world) : row :=
  <["id" := Val (Int (seq (store w)))]>
    (dict [ ("post_id", post_id);
            ("user_id", user_id);
            ("created_at", isoformat (hd 0 (clock w))) ]).

(** A store where post 1 already has a like, by user 2. *)
Definition liked_once : world :=
  after (create_user "ann" "ann@x.com" "secret1" "";;
         create_user "bob" "bob@x.com" "secret2" "";;
         create_user "cyd" "cyd@x.com" "secret3" "";;
         create_post (Val (Int 1)) "Hello" "A first post, long enough to be published." "Technology";;
         add_like (Val (Int 4)) (Val (Int 2)))
        (quiet empty_db).

(** The world of a visitor, logged in or not, who asks for a page. *)
Definition visiting (logged : bool) (p : string) (w : world) : world :=
  let s := session_state w in
  World (store w) (clock w) (faults w)
        (Session logged (user_id s) (username s) (email s) p
                 (selected_post_id s) (search_query s) (selected_category s)
                 (new_post_id s))
        (visitor w) (rendered w).

(** The posts whose title button the home page has put on the page. *)
Definition shown_post (e : element) : option value :=
  match e with
  | Button _ (k, id) => if String.eqb k "home_post" then Some id else None
  | _ => None
  end.

Definition shown_posts (es : list element) : list value := omap shown_post es.

Definition with_rendered (es : list element) (w : world) : world :=
  World (store w) (clock w) (faults w) (session_state w) (visitor w) es.

(** The filters of the home page, on posts whose title and content are
    texts. *)
Definition search_matches (str_lower : string -> string) (search_lower : string)
    (p : row) : bool :=
  match p !! "title" with
  | Some (Val (Str title)) =>
      contains search_lower (str_lower title)
      || match p !! "content" with
         | Some (Val (Str content)) => contains search_lower (str_lower content)
         | _ => false
         end
  | _ => false
  end.

Definition category_matches (category : string) (p : row) : bool :=
  bool_decide (cell p "category" = Val (Str category)).

(** The posts the home page is to show: those among [posts] that pass
    the search and the category filter, the first ten of them. *)
Definition home_selection (str_lower : string -> string) (search category : string)
    (posts : list row) : list row :=
  let found :=
    if String.eqb search "" then posts
    else List.filter (search_matches str_lower (str_lower search)) posts in
  let filed :=
    if String.eqb category "All" then found
    else List.filter (category_matches category) found in
  firstn 10 filed.

(** *** Failures, seen from the caller

    Two worlds that differ at most in the kinds of the failures that
    await the coming requests, not in which requests fail. *)
Definition alike (a b : option fault) : Prop :=
  match a, b with
  | None, None => True
  | Some _, Some _ => True
  | _, _ => False
  end.

Definition same_but_kinds (w1 w2 : world) : Prop :=
  store w1 = store w2
  /\ clock w1 = clock w2
  /\ session_state w1 = session_state w2
  /\ visitor w1 = visitor w2
  /\ rendered w1 = rendered w2
  /\ Forall2 alike (faults w1) (faults w2).

(** Two outcomes a caller cannot tell apart: the same value returned, or
    an [Exception] raised on both sides. *)
Definition same_outcome {A} (o1 o2 : (exn + A) * world) : Prop :=
  same_but_kinds (snd o1) (snd o2)
  /\ match fst o1, fst o2 with
     | inr a, inr b => a = b
     | inl e1, inl e2 => is_Exception e1 = true /\ is_Exception e2 = true
     | _, _ => False
     end.

(** A computation whose outcome does not depend on the kinds of the
    failures. *)
Definition blind {A} (m : M A) : Prop :=
  forall w1 w2, same_but_kinds w1 w2 -> same_outcome (m w1) (m w2).

(** No exception leaves [m]. *)
Definition returns {A} (m : M A) : Prop :=
  forall w, exists v, run m w = inr v.

(** [m] gives [d] when its request fails. *)
Definition falls_back {A} (m : M A) (d : A) : Prop :=
  forall w f, hd None (faults w) = Some f -> run m w = inr d.

(** A data-access function that catches every failure of its request
    and turns it into [d], whatever its kind. *)
Definition graceful {A} (m : M A) (d : A) : Prop :=
  returns m /\ falls_back m d /\ blind m.

(** ** A store to try things on

    Two users, a post of the first with five views, a comment on it and
    a reply to the comment, and three likes, two of them by the same
    user. *)
Definition sample_db : db :=
  Db [ dict [ ("id", Val (Int 1)); ("username", Val (Str "ann"));
              ("email", Val (Str "ann@x.com"));
              ("password", Val (Str (hash_password "secret1")));
              ("bio", Val (Str "")); ("created_at", isoformat 100) ];
       dict [ ("id", Val (Int 2)); ("username", Val (Str "bob"));
              ("email", Val (Str "bob@x.com"));
              ("password", Val (Str (hash_password "secret2")));
              ("bio", Val (Str "")); ("created_at", isoformat 101) ] ]
     [ dict [ ("id", Val (Int 3)); ("user_id", Val (Int 1));
              ("title", Val (Str "Hello"));
              ("content", Val (Str "A first post, long enough to be published here."));
              ("category", Val (Str "Technology")); ("views", Val (Int 5));
              ("created_at", isoformat 102); ("updated_at", isoformat 102) ] ]
     [ dict [ ("id", Val (Int 4)); ("post_id", Val (Int 3)); ("user_id", Val (Int 2));
              ("content", Val (Str "Welcome")); ("parent_id", Val Null);
              ("created_at", isoformat 103) ];
       dict [ ("id", Val (Int 5)); ("post_id", Val (Int 3)); ("user_id", Val (Int 1));
              ("content", Val (Str "Thanks")); ("parent_id", Val (Int 4));
              ("created_at", isoformat 104) ] ]
     [ dict [ ("id", Val (Int 6)); ("post_id", Val (Int 3)); ("user_id", Val (Int 2));
              ("created_at", isoformat 105) ];
       dict [ ("id", Val (Int 7)); ("post_id", Val (Int 3)); ("user_id", Val (Int 2));
              ("created_at", isoformat 106) ];
       dict [ ("id", Val (Int 8)); ("post_id", Val (Int 3)); ("user_id", Val (Int 1));
              ("created_at", isoformat 107) ] ]
     9.

Definition sample : world := quiet sample_db.

(** The sample with the store out of reach for the next request, or
    refusing it. *)
Definition sample_unreachable : world :=
  World sample_db [] [Some Unreachable] initial_session no_gestures [].
Definition sample_refusing : world :=
  World sample_db [] [Some (Refused "42501")] initial_session no_gestures [].

(** [str.lower] on ASCII letters. *)
Definition lower_ascii (c : ascii) : ascii :=
  let n := nat_of_ascii c in
  if (65 <=? n)%nat && (n <=? 90)%nat then ascii_of_nat (n + 32) else c.

Fixpoint ascii_lower (s : string) : string :=
  match s with
  | EmptyString => EmptyString
  | String c rest => String (lower_ascii c) (ascii_lower rest)
  end.

(** ** More vocabulary: what the store keeps *)

(** Ids come from the store: every row carries an integer id below the
    next one the store will give. *)
Definition fresh_table (d : db) (rows : list row) : Prop :=
  forall r, In r rows -> exists n, cell r "id" = Val (Int n) /\ n < seq d.

(** The row [create_post] asks the store to keep, with its id. *)
Definition new_post (user_id : value) (title content category : string) (w : world) : row :=
  <["id" := Val (Int (seq (store w)))]>
    (dict [ ("user_id", user_id);
            ("title", Val (Str title));
            ("content", Val (Str content));
            ("category", Val (Str category));
            ("views", Val (Int 0));
            ("created_at", isoformat (hd 0 (clock w)));
            ("updated_at", isoformat (hd 0 (tl (clock w)))) ]).

(** The row [add_comment] asks the store to keep, with its id. *)
Definition new_comment (post_id user_id : value) (content : string) (parent_id : value)
    (w : world) : row :=
  <["id" := Val (Int (seq (store w)))]>
    (dict [ ("post_id", post_id);
            ("user_id", user_id);
            ("content", Val (Str content));
            ("parent_id", parent_id);
            ("created_at", isoformat (hd 0 (clock w))) ]).

(** *** Calls of the database functions

    A call of one of the database functions with its arguments, and what
    it does to the world, whatever it returns. *)
Inductive db_call : Type :=
  | Create_user (username email password bio : string)
  | Authenticate_user (username password : string)
  | Get_user_by_id (user_id : value)
  | Update_user_profile (user_id : value) (email bio : string)
  | Change_password (user_id : value) (old_password new_password : string)
  | Create_post (user_id : value) (title content category : string)
  | Get_all_posts
  | Get_post_by_id (post_id : value)
  | Get_user_posts (user_id : value)
  | Update_post (post_id : value) (title content category : string)
  | Delete_post (post_id : value)
  | Increment_view_count (post_id : value)
  | Add_comment (post_id user_id : value) (content : string) (parent_id : value)
  | Get_comments (post_id : value)
  | Add_like (post_id user_id : value)
  | Remove_like (post_id user_id : value)
  | Get_like_count (post_id : value)
  | Check_user_liked (post_id user_id : value)
  | Get_comment_count (post_id : value)
  | Get_total_users
  | Get_total_posts
  | Add_sample_data.

Definition perform (c : db_call) : M unit :=
  match c with
  | Create_user u e p b => create_user u e p b;; ret tt
  | Authenticate_user u p => authenticate_user u p;; ret tt
  | Get_user_by_id i => get_user_by_id i;; ret tt
  | Update_user_profile i e b => update_user_profile i e b;; ret tt
  | Change_password i o n => change_password i o n;; ret tt
  | Create_post i t c g => create_post i t c g;; ret tt
  | Get_all_posts => get_all_posts;; ret tt
  | Get_post_by_id i => get_post_by_id i;; ret tt
  | Get_user_posts i => get_user_posts i;; ret tt
  | Update_post i t c g => update_post i t c g;; ret tt
  | Delete_post i => delete_post i;; ret tt
  | Increment_view_count i => increment_view_count i
  | Add_comment p u c r => add_comment p u c r;; ret tt
  | Get_comments i => get_comments i;; ret tt
  | Add_like p u => add_like p u;; ret tt
  | Remove_like p u => remove_like p u;; ret tt
  | Get_like_count i => get_like_count i;; ret tt
  | Check_user_liked p u => check_user_liked p u;; ret tt
  | Get_comment_count i => get_comment_count i;; ret tt
  | Get_total_users => get_total_users;; ret tt
  | Get_total_posts => get_total_posts;; ret tt
  | Add_sample_data => add_sample_data
  end.

(** [m] takes every store to one related to it by [R], whether it
    returns or raises. *)
Definition moves {A} (R : db -> db -> Prop) (m : M A) : Prop :=
  forall w, R (store w) (store (snd (m w))).

(** The ids of a table, and a store whose ids are the store's own and
    name one row each. *)
Definition ids (rows : list row) : list value := map (fun r => cell r "id") rows.

Definition table_ok (d : db) (rows : list row) : Prop :=
  fresh_table d rows /\ List.NoDup (ids rows).

Definition well_formed (d : db) : Prop :=
  forall t rows, get_table t d = Some rows -> table_ok d rows.

(** A view count that has not gone down. *)
Definition views_le (x y : value) : Prop :=
  x = y \/ exists a b, x = Val (Int a) /\ y = Val (Int b) /\ a <= b.

(** From a well-formed store [d] to a well-formed store [d'] in which
    every post that was in [d] has at least the views it had. *)
Definition views_kept (d d' : db) : Prop :=
  well_formed d ->
  well_formed d'
  /\ seq d <= seq d'
  /\ forall p' n,
       In p' (posts d') -> cell p' "id" = Val (Int n) -> n < seq d ->
       exists p, In p (posts d) /\ cell p "id" = Val (Int n)
                 /\ views_le (cell p "views") (cell p' "views").

(** A request that writes neither an id nor a view count. *)
Definition spares_views (q : query) : bool :=
  match q_verb q with
  | Update patch =>
      bool_decide (patch !! "id" = None) && bool_decide (patch !! "views" = None)
  | _ => true
  end.

(** An account: the id and the username of a user row. *)
Definition account (r : row) : value * value := (cell r "id", cell r "username").

(** The accounts of [d] are still there in [d'], in their places. *)
Definition accounts_kept (d d' : db) : Prop :=
  exists more, map account (users d') = map account (users d) ++ more.

(** A request that leaves the accounts alone: it deletes no user, and
    patches neither the id nor the username of one. *)
Definition spares_accounts (q : query) : bool :=
  negb (String.eqb (q_table q) "users")
  || match q_verb q with
     | Update patch =>
         bool_decide (patch !! "id" = None) && bool_decide (patch !! "username" = None)
     | Delete => false
     | _ => true
     end.

(** A few calls in a row, to try the invariants on the sample. *)
Definition sample_calls : list db_call :=
  [ Increment_view_count (Val (Int 3));
    Update_post (Val (Int 3)) "Hello again" "The same post, edited, and still long enough." "Food";
    Create_user "ann" "other@x.com" "secret7" "";
    Create_post (Val (Int 2)) "Second" "Another post, long enough to be published too." "Travel";
    Delete_post (Val (Int 9));
    Increment_view_count (Val (Int 3)) ].

Definition sample_post_row : row := hd ∅ (posts sample_db).
Definition sample_post_later : row :=
  hd ∅ (posts (store (after (for_each sample_calls perform) sample))).

(** *** Order

    A list in which each row comes before the next. *)
Fixpoint in_order (le : row -> row -> bool) (rs : list row) : Prop :=
  match rs with
  | a :: (b :: _) as rest => le a b = true /\ in_order le rest
  | _ => True
  end.

(** Oldest first, newest first. *)
Definition oldest_first (a b : row) : bool :=
  comes_before true (cell a "created_at") (cell b "created_at").
Definition newest_first (a b : row) : bool :=
  comes_before false (cell a "created_at") (cell b "created_at").

Definition comment_of_post (post_id : value) (c : row) : bool :=
  bool_decide (cell c "post_id" = post_id).
Definition post_of_user (user_id : value) (p : row) : bool :=
  bool_decide (cell p "user_id" = user_id).

Definition comment_columns : list column :=
  [ Col "id"; Col "user_id"; Col "content"; Col "created_at";
    Col "parent_id"; Embed "users" ["username"] ].

Definition user_post_columns : list column :=
  [ Col "id"; Col "title"; Col "content"; Col "category";
    Col "views"; Col "created_at"; Embed "users" ["username"] ].

(** * Properties *)

(** ** Test vectors of the hash *)

Example sha_abc :
  hash_password "abc" = "ba7816bf8f01cfea414140de5dae2223b00361a396177a9cb410ff61f20015ad".
Proof. vm_compute. reflexivity. Qed.

Example sha_empty :
  hash_password "" = "e3b0c44298fc1c149afbf4c8996fb92427ae41e4649b934ca495991b7852b855".
Proof. vm_compute. reflexivity. Qed.

Example sha_two_blocks :
  hash_password "abcdbcdecdefdefgefghfghighijhijkijkljklmklmnlmnomnopnopq"
  = "248d6a61d20638b8e5c026930c3e6039a33ce45964ff2167f6ecedd419db06c1".
Proof. vm_compute. reflexivity. Qed.

(** ** The monad *)

Lemma bind_returns {A B} (m : M A) (k : A -> M B) w v w' :
  bind m k w = (inr v, w') ->
  exists x w1, m w = (inr x, w1) /\ k x w1 = (inr v, w').
Proof.
  unfold bind. destruct (m w) as [[e | x] w1]; [discriminate |].
  intros H. exists x, w1. split; [reflexivity | exact H].
Qed.

Lemma bind_step {A B} (m : M A) (k : A -> M B) w x w1 :
  m w = (inr x, w1) -> bind m k w = k x w1.
Proof. unfold bind. intros ->. reflexivity. Qed.

Lemma bind_raises {A B} (m : M A) (k : A -> M B) w e w1 :
  m w = (inl e, w1) -> bind m k w = (inl e, w1).
Proof. unfold bind. intros ->. reflexivity. Qed.

Ltac step H := first [ rewrite (bind_step _ _ _ _ _ H) | rewrite (bind_raises _ _ _ _ _ H) ].

Lemma try_returns_other {A} (body : M A) (d v : A) w w' :
  try_except_Exception body (fun _ => ret d) w = (inr v, w') ->
  v <> d ->
  body w = (inr v, w').
Proof.
  unfold try_except_Exception.
  destruct (body w) as [[e | x] w1]; [| intros H _; exact H].
  destruct (is_Exception e); [| discriminate].
  unfold ret. intros H Hv. congruence.
Qed.

(** ** Rows and filters *)

(** The store's helpers are reasoned about by their lemmas, not unfolded
    by [cbn]. *)
Arguments matches : simpl never.
Arguments holds : simpl never.
Arguments cell : simpl never.
Arguments dict : simpl never.
Arguments project : simpl never.
Arguments ordered : simpl never.
Arguments hash_password : simpl never.
Arguments violates_unique : simpl never.

Lemma cell_dict_cons k v kvs c :
  cell (dict ((k, v) :: kvs)) c = if String.eqb k c then v else cell (dict kvs) c.
Proof.
  unfold cell, dict. cbn [list_to_map foldr].
  destruct (String.eqb_spec k c) as [-> | Hne].
  - rewrite lookup_insert_eq. reflexivity.
  - rewrite lookup_insert_ne by exact Hne. reflexivity.
Qed.

Lemma cell_dict_nil c : cell (dict []) c = Val Null.
Proof. reflexivity. Qed.

Lemma cell_insert k v (r : row) c :
  cell (<[k := v]> r) c = if String.eqb k c then v else cell r c.
Proof.
  unfold cell. destruct (String.eqb_spec k c) as [-> | Hne].
  - rewrite lookup_insert_eq. reflexivity.
  - rewrite lookup_insert_ne by exact Hne. reflexivity.
Qed.

Ltac read_cells :=
  repeat (first [ rewrite cell_insert | rewrite cell_dict_cons | rewrite cell_dict_nil ];
          cbn [String.eqb Ascii.eqb Bool.eqb]).

Lemma cell_patched c x r c' :
  cell (dict [(c, x)] ∪ r) c' = if decide (c = c') then x else cell r c'.
Proof.
  unfold cell, dict. cbn [list_to_map foldr]. rewrite lookup_union.
  destruct (decide (c = c')) as [-> | Hne].
  - rewrite lookup_insert_eq. destruct (r !! c'); reflexivity.
  - rewrite lookup_insert_ne by exact Hne. rewrite lookup_empty.
    destruct (r !! c'); reflexivity.
Qed.

Lemma holds_eq r c x :
  x <> Val Null -> holds r (Eq c x) = bool_decide (cell r c = x).
Proof. unfold holds. destruct x as [[| |] |]; congruence. Qed.

Lemma holds_eq_true r c x :
  holds r (Eq c x) = true -> cell r c = x /\ x <> Val Null.
Proof.
  unfold holds. destruct x as [[| n | s] | o]; try discriminate;
    intros H; apply bool_decide_eq_true_1 in H; split; congruence.
Qed.

Lemma matches_id pid r :
  pid <> Val Null ->
  matches [Eq "id" pid] r = bool_decide (cell r "id" = pid).
Proof.
  intros Hnn. unfold matches. cbn. rewrite holds_eq by exact Hnn.
  apply andb_true_r.
Qed.

Lemma matches_one_true c x r :
  matches [Eq c x] r = true -> cell r c = x /\ x <> Val Null.
Proof.
  unfold matches. cbn. rewrite andb_true_r. apply holds_eq_true.
Qed.

Lemma matches_two c1 x1 c2 x2 r :
  x1 <> Val Null -> x2 <> Val Null ->
  matches [Eq c1 x1; Eq c2 x2] r
  = bool_decide (cell r c1 = x1) && bool_decide (cell r c2 = x2).
Proof.
  intros H1 H2. unfold matches. cbn.
  rewrite !holds_eq by assumption. rewrite andb_true_r. reflexivity.
Qed.

Lemma matches_post post_id l :
  post_id <> Val Null ->
  matches [Eq "post_id" post_id] l = like_of_post post_id l.
Proof.
  intros Hnn. unfold matches, like_of_post. cbn.
  rewrite holds_eq by exact Hnn. apply andb_true_r.
Qed.

Lemma matches_like post_id user_id l :
  post_id <> Val Null -> user_id <> Val Null ->
  matches [Eq "post_id" post_id; Eq "user_id" user_id] l = like_by post_id user_id l.
Proof. intros H1 H2. apply matches_two; assumption. Qed.

Lemma matches_root post_id r :
  post_id <> Val Null ->
  matches [Eq "post_id" post_id; Is_null "parent_id"] r = root_comment_of post_id r.
Proof.
  intros Hnn. unfold matches, root_comment_of. cbn.
  rewrite holds_eq by exact Hnn. unfold holds. rewrite andb_true_r. reflexivity.
Qed.

Lemma filter_none {A} (f : A -> bool) (l : list A) :
  (forall x, In x l -> f x = false) -> List.filter f l = [].
Proof.
  induction l as [| a l IH]; intros H; [reflexivity |].
  cbn. rewrite (H a (or_introl Logic.eq_refl)). apply IH.
  intros x Hx. apply H. right. exact Hx.
Qed.

Lemma filter_after_delete (f : row -> bool) (rows : list row) :
  List.filter f (List.filter (fun r => negb (f r)) rows) = [].
Proof.
  apply filter_none. intros x Hx. apply filter_In in Hx as [_ Hx].
  destruct (f x); [discriminate | reflexivity].
Qed.

Lemma filter_first {A} (f : A -> bool) (l : list A) x :
  In x l -> f x = true ->
  exists y rest, List.filter f l = y :: rest /\ In y l /\ f y = true.
Proof.
  intros Hin Hf.
  destruct (List.filter f l) as [| y rest] eqn:E.
  - assert (H : In x (List.filter f l)) by (apply filter_In; auto).
    rewrite E in H. destruct H.
  - exists y, rest. split; [reflexivity |].
    apply filter_In. rewrite E. left. reflexivity.
Qed.

Lemma filter_head {A} (f : A -> bool) (l : list A) y rest :
  List.filter f l = y :: rest -> In y l /\ f y = true.
Proof.
  intros E. apply filter_In. rewrite E. left. reflexivity.
Qed.

Lemma filter_filter {A} (f g : A -> bool) (l : list A) :
  List.filter f (List.filter g l) = List.filter (fun x => f x && g x) l.
Proof.
  induction l as [| a l IH]; [reflexivity |].
  cbn. destruct (g a); cbn; rewrite IH;
    [rewrite andb_true_r | rewrite andb_false_r]; reflexivity.
Qed.

(** ** Requests *)

Lemma is_Exception_fault f : is_Exception (exn_of_fault f) = true.
Proof. destruct f; reflexivity. Qed.

Lemma execute_unfold q w :
  execute q w =
  match hd None (faults w) with
  | Some f => (inl (exn_of_fault f), pop w)
  | None =>
      match get_table (q_table q) (store w) with
      | None => (inl (APIError "42P01"), pop w)
      | Some rows =>
          match q_verb q with
          | Select cols exact => run_select q cols exact (store w) rows (pop w)
          | Insert r => run_insert q r (store w) rows (pop w)
          | Insert_many rs => run_insert_many q rs (store w) rows (pop w)
          | Update patch => run_update q patch (store w) rows (pop w)
          | Delete => run_delete q (store w) rows (pop w)
          end
      end
  end.
Proof.
  unfold execute, bind, request, get_db.
  destruct (hd None (faults w)); [reflexivity |].
  cbn. destruct (get_table (q_table q) (store w)); [| reflexivity].
  destruct (q_verb q); reflexivity.
Qed.

Lemma execute_frame q es w :
  execute q (with_rendered es w)
  = (fst (execute q w), with_rendered es (snd (execute q w))).
Proof.
  rewrite !execute_unfold. cbn.
  destruct (hd None (faults w)); [reflexivity |].
  destruct (get_table (q_table q) (store w)); [| reflexivity].
  destruct (q_verb q); cbn.
  - unfold run_select. destruct (forallb _ _); reflexivity.
  - unfold run_insert. destruct (violates_unique _ _ _); reflexivity.
  - unfold run_insert_many. destruct (place _ _ _ _) as [[rows' new] |]; reflexivity.
  - reflexivity.
  - reflexivity.
Qed.

Lemma delete_returns t ks o w r w' :
  execute (Query t Delete ks o) w = (inr r, w') ->
  exists rows,
    get_table t (store w) = Some rows
    /\ w' = with_store (set_table t (List.filter (fun r => negb (matches ks r)) rows) (store w))
                       (pop w).
Proof.
  rewrite execute_unfold. cbn.
  destruct (hd None (faults w)); [discriminate |].
  destruct (get_table t (store w)) as [rows |]; [| discriminate].
  intros H. exists rows. split; [reflexivity |].
  unfold run_delete, bind, put_db, ret in H. cbn in H. congruence.
Qed.

Lemma ordered_nil o : ordered o [] = [].
Proof. destruct o as [[c ascending] |]; reflexivity. Qed.

Lemma ordered_none rs : ordered None rs = rs.
Proof. reflexivity. Qed.

Lemma project_col d t cols r c :
  In (Col c) cols ->
  (forall cs, ~ In (Embed c cs) cols) ->
  project d t cols r !! c = Some (cell r c).
Proof.
  unfold project. induction cols as [| x cols IH]; intros Hin Hno; [destruct Hin |].
  cbn [map list_to_map foldr].
  destruct x as [c' | t' cs].
  - destruct (decide (c' = c)) as [-> | Hne].
    + apply lookup_insert_eq.
    + rewrite lookup_insert_ne by exact Hne. apply IH.
      * destruct Hin as [Hin | Hin]; [congruence | exact Hin].
      * intros cs H. apply (Hno cs). right. exact H.
  - assert (Hne : t' <> c).
    { intros ->. apply (Hno cs). left. reflexivity. }
    rewrite lookup_insert_ne by exact Hne. apply IH.
    + destruct Hin as [Hin | Hin]; [discriminate | exact Hin].
    + intros cs' H. apply (Hno cs'). right. exact H.
Qed.

Ltac plain_columns :=
  first [ solve [cbn; tauto]
        | let cs := fresh in let H := fresh in
          intros cs H; cbn in H;
          repeat (destruct H as [H | H]; [discriminate |]); exact H ].

Lemma getitem_project d t cols r c :
  In (Col c) cols ->
  (forall cs, ~ In (Embed c cs) cols) ->
  getitem (project d t cols r) c = ret (cell r c).
Proof. intros H1 H2. unfold getitem. rewrite project_col by assumption. reflexivity. Qed.

Lemma getitem_cases (r : row) k w :
  (exists v, r !! k = Some v /\ getitem r k w = (inr v, w))
  \/ (r !! k = None /\ getitem r k w = (inl (KeyError k), w)).
Proof.
  unfold getitem. destruct (r !! k) as [v |]; [left; exists v | right]; auto.
Qed.

(** ** Worlds in which nothing fails from outside *)

Lemma undisturbed_calm w : undisturbed w -> calm w.
Proof.
  unfold undisturbed, calm. destruct (faults w) as [| f fs]; [reflexivity |].
  intros H. inversion H; subst. reflexivity.
Qed.

Lemma undisturbed_pop w : undisturbed w -> undisturbed (pop w).
Proof.
  unfold undisturbed. cbn. destruct (faults w) as [| f fs]; [trivial |].
  intros H. inversion H; assumption.
Qed.

Lemma undisturbed_with_store d w : undisturbed w -> undisturbed (with_store d w).
Proof. trivial. Qed.

Create HintDb world.
#[local] Hint Resolve undisturbed_calm undisturbed_pop undisturbed_with_store : world.

(** ** Signing up and logging in *)

Lemma username_free r rows :
  (forall u, In u rows -> cell u "username" <> cell r "username") ->
  violates_unique "users" r rows = false.
Proof.
  intros H. unfold violates_unique.
  replace (existsb _ rows) with false; [apply andb_false_r |].
  symmetry. apply not_true_is_false. intros E.
  apply existsb_exists in E as (u & Hu & E).
  apply bool_decide_eq_true_1 in E. exact (H u Hu E).
Qed.

Lemma create_user_succeeds (username email password bio : string) (w : world) :
  calm w ->
  (forall u, In u (users (store w)) -> cell u "username" <> Val (Str username)) ->
  exists w1,
    create_user username email password bio w = (inr true, w1)
    /\ users (store w1) = users (store w) ++ [new_user username email password bio w]
    /\ faults w1 = tl (faults w).
Proof.
  intros Hq Hfree.
  unfold create_user, try_except_Exception, bind, datetime_now.
  rewrite execute_unfold. cbn. unfold calm in Hq. rewrite Hq.
  unfold run_insert. cbn.
  rewrite username_free by (intros u Hu; read_cells; apply Hfree; exact Hu).
  cbn. eexists. split; [reflexivity |]. split; reflexivity.
Qed.

Lemma authenticate_user_finds (username password : string) (w : world) (u : row) :
  calm w ->
  In u (users (store w)) ->
  cell u "username" = Val (Str username) ->
  cell u "password" = Val (Str (hash_password password)) ->
  exists r,
    authenticate_user username password w = (inr (Some r), pop w)
    /\ r !! "username" = Some (Val (Str username)).
Proof.
  intros Hq Hu Hname Hpw.
  unfold authenticate_user, try_except_Exception, bind.
  rewrite execute_unfold. cbn. unfold calm in Hq. rewrite Hq.
  unfold run_select. cbn. rewrite ordered_none.
  destruct (filter_first
              (matches [Eq "username" (Val (Str username));
                        Eq "password" (Val (Str (hash_password password)))])
              (users (store w)) u Hu) as (y & rest & -> & _ & Hy).
  { rewrite matches_two by discriminate.
    rewrite !bool_decide_eq_true_2 by assumption. reflexivity. }
  cbn. eexists. split; [reflexivity |].
  rewrite project_col by plain_columns.
  rewrite matches_two in Hy by discriminate.
  apply andb_prop in Hy as [Hy _]. apply bool_decide_eq_true_1 in Hy.
  rewrite Hy. reflexivity.
Qed.

(** C2. In a world where no request fails, for a username no user row
    carries yet, [create_user] succeeds and [authenticate_user] with the
    same username and password then returns a user record, whose
    username is the one given. *)
Theorem create_user_then_authenticate
    (username email password bio : string) (w : world) :
  undisturbed w ->
  (forall u, In u (users (store w)) -> cell u "username" <> Val (Str username)) ->
  exists (r : row) (w1 w2 : world),
    create_user username email password bio w = (inr true, w1)
    /\ authenticate_user username password w1 = (inr (Some r), w2)
    /\ r !! "username" = Some (Val (Str username)).
Proof.
  intros Hq Hfree.
  destruct (create_user_succeeds username email password bio w)
    as (w1 & Hcreate & Husers & Hfaults); [auto with world | exact Hfree |].
  destruct (authenticate_user_finds username password w1
              (new_user username email password bio w)) as (r & Hauth & Hr).
  - unfold calm. rewrite Hfaults. apply (undisturbed_calm (pop w)). auto with world.
  - rewrite Husers. apply in_or_app. right. left. reflexivity.
  - unfold new_user. read_cells. reflexivity.
  - unfold new_user. read_cells. reflexivity.
  - exists r, w1, (pop w1). auto.
Qed.

Lemma create_user_then_authenticate_sample :
  exists (r : row) (w1 w2 : world),
    create_user "cyd" "cyd@x.com" "secret3" "" sample = (inr true, w1)
    /\ authenticate_user "cyd" "secret3" w1 = (inr (Some r), w2)
    /\ r !! "username" = Some (Val (Str "cyd")).
Proof.
  apply (create_user_then_authenticate "cyd" "cyd@x.com" "secret3" "" sample).
  - constructor.
  - intros u Hu. cbn in Hu.
    destruct Hu as [<- | [<- | []]]; read_cells; discriminate.
Defined.

Example alice_logs_in :
  run (create_user "alice" "alice@x.com" "secret1" "";;
       r <- authenticate_user "alice" "secret1";;
       ret (option_map (fun r => cell r "username") r)) (quiet empty_db)
  = inr (Some (Val (Str "alice"))).
Proof. vm_compute. reflexivity. Qed.

Example alice_wrong_password :
  run (create_user "alice" "alice@x.com" "secret1" "";;
       authenticate_user "alice" "wrong") (quiet empty_db)
  = inr None.
Proof. vm_compute. reflexivity. Qed.

(** ** Changing the password *)

Lemma get_user_by_id_returns user_id w :
  exists x, get_user_by_id user_id w = (inr x, pop w).
Proof.
  unfold get_user_by_id, try_except_Exception, bind.
  rewrite execute_unfold. cbn.
  destruct (hd None (faults w)) as [f |].
  - rewrite is_Exception_fault. eexists. reflexivity.
  - unfold run_select. cbn.
    destruct (map _ _); eexists; reflexivity.
Qed.

Lemma change_password_unfold user_id old_password new_password w :
  change_password user_id old_password new_password w
  = match hd None (faults (pop w)) with
    | Some _ => (inr false, pop (pop w))
    | None =>
        match List.filter (matches [Eq "id" user_id]) (users (store w)) with
        | [] => (inr false, pop (pop w))
        | u :: _ =>
            if bool_decide (cell u "password" = Val (Str (hash_password old_password)))
            then
              match hd None (faults (pop (pop w))) with
              | Some _ => (inr false, pop (pop (pop w)))
              | None =>
                  (inr true,
                   with_store
                     (set_table "users"
                        (map (fun r => if matches [Eq "id" user_id] r
                                       then dict [("password",
                                                   Val (Str (hash_password new_password)))] ∪ r
                                       else r)
                             (users (store w)))
                        (store w))
                     (pop (pop (pop w))))
              end
            else (inr false, pop (pop w))
        end
    end.
Proof.
  unfold change_password, try_except_Exception.
  destruct (get_user_by_id_returns user_id w) as [x Hx].
  rewrite (bind_step _ _ _ _ _ Hx).
  unfold bind. rewrite execute_unfold. cbn.
  destruct (hd None (tl (faults w))) as [f |].
  { rewrite is_Exception_fault. reflexivity. }
  unfold run_select. cbn. rewrite ordered_none.
  destruct (List.filter (matches [Eq "id" user_id]) (users (store w))) as [| u rest];
    [reflexivity |].
  cbn. rewrite getitem_project by plain_columns. cbn.
  destruct (bool_decide (cell u "password" = Val (Str (hash_password old_password))));
    [| reflexivity].
  rewrite execute_unfold. cbn.
  destruct (hd None (tl (tl (faults w)))) as [f |].
  { rewrite is_Exception_fault. reflexivity. }
  reflexivity.
Qed.

Lemma password_written d user_id h :
  forall u,
    In u (map (fun r => if matches [Eq "id" user_id] r
                        then dict [("password", Val (Str h))] ∪ r else r)
              (users d)) ->
    user_id <> Val Null ->
    cell u "id" = user_id ->
    cell u "password" = Val (Str h).
Proof.
  intros u Hu Hnn Hid. apply in_map_iff in Hu as (r & <- & Hr).
  rewrite matches_id in Hid |- * by exact Hnn.
  destruct (bool_decide (cell r "id" = user_id)) eqn:E.
  - rewrite cell_patched. reflexivity.
  - apply bool_decide_eq_false_1 in E. contradiction.
Qed.

(** C7. [change_password] returns true, having written the hash of the
    new password, only when the stored hash is the hash of the old
    password given; when the stored hash differs it returns false and
    leaves the store as it was; and when they agree and no request
    fails, it does return true with the new hash stored. *)
Theorem change_password_verifies_old_hash
    (user_id : value) (old_password new_password : string) (w : world) :
  (forall w',
      change_password user_id old_password new_password w = (inr true, w') ->
      (exists u, In u (users (store w)) /\ cell u "id" = user_id
                 /\ cell u "password" = Val (Str (hash_password old_password)))
      /\ (forall u, In u (users (store w')) -> cell u "id" = user_id ->
                    cell u "password" = Val (Str (hash_password new_password))))
  /\ ((forall u, In u (users (store w)) -> cell u "id" = user_id ->
                 cell u "password" <> Val (Str (hash_password old_password))) ->
      run (change_password user_id old_password new_password) w = inr false
      /\ store (after (change_password user_id old_password new_password) w) = store w)
  /\ (user_id <> Val Null ->
      undisturbed w ->
      has_password (store w) user_id (hash_password old_password) ->
      run (change_password user_id old_password new_password) w = inr true
      /\ has_password (store (after (change_password user_id old_password new_password) w))
                      user_id (hash_password new_password)).
Proof.
  unfold run, after. rewrite change_password_unfold.
  split; [| split].
  - intros w'.
    destruct (hd None (faults (pop w))); [discriminate |].
    destruct (List.filter _ _) as [| u rest] eqn:E; [discriminate |].
    apply filter_head in E as [Hu Hm]. apply matches_one_true in Hm as [Hid Hnn].
    destruct (bool_decide _) eqn:Hpw; [| discriminate].
    apply bool_decide_eq_true_1 in Hpw.
    destruct (hd None (faults (pop (pop w)))); [discriminate |].
    intros H. injection H as <-. split.
    + exists u. auto.
    + intros u' Hu' Hid'. cbn in Hu'.
      apply (password_written (store w) user_id); assumption.
  - intros Hdiff.
    destruct (hd None (faults (pop w))); [split; reflexivity |].
    destruct (List.filter _ _) as [| u rest] eqn:E; [split; reflexivity |].
    apply filter_head in E as [Hu Hm]. apply matches_one_true in Hm as [Hid Hnn].
    rewrite bool_decide_eq_false_2 by (apply Hdiff; assumption).
    split; reflexivity.
  - intros Hnn Hq [(u & Hu & Hid) Hall].
    rewrite (undisturbed_calm (pop w)) by auto with world.
    destruct (filter_first (matches [Eq "id" user_id]) (users (store w)) u Hu)
      as (y & rest & -> & Hy & Hmy).
    { rewrite matches_id by exact Hnn. apply bool_decide_eq_true_2. exact Hid. }
    apply matches_one_true in Hmy as [Hyid _].
    rewrite bool_decide_eq_true_2 by (apply Hall; assumption).
    rewrite (undisturbed_calm (pop (pop w))) by auto with world.
    cbn. split; [reflexivity |]. split.
    + exists (dict [("password", Val (Str (hash_password new_password)))] ∪ u). split.
      * apply in_map_iff. exists u. split; [| exact Hu].
        rewrite matches_id by exact Hnn.
        rewrite bool_decide_eq_true_2 by exact Hid. reflexivity.
      * rewrite cell_patched. cbn. exact Hid.
    + intros u' Hu' Hid'.
      apply (password_written (store w) user_id); assumption.
Qed.

Lemma change_password_sample :
  run (change_password (Val (Int 1)) "secret1" "secret9") sample = inr true
  /\ has_password
       (store (after (change_password (Val (Int 1)) "secret1" "secret9") sample))
       (Val (Int 1)) (hash_password "secret9").
Proof.
  destruct (change_password_verifies_old_hash (Val (Int 1)) "secret1" "secret9" sample)
    as (_ & _ & H).
  apply H.
  - discriminate.
  - constructor.
  - split.
    + eexists. split; [left; reflexivity |]. read_cells. reflexivity.
    + intros u Hu. cbn in Hu.
      destruct Hu as [<- | [<- | []]]; read_cells; [reflexivity | discriminate].
Defined.

Example change_password_wrong_old :
  run (change_password (Val (Int 1)) "guess" "secret9") sample = inr false
  /\ store (after (change_password (Val (Int 1)) "guess" "secret9") sample) = sample_db.
Proof. split; vm_compute; reflexivity. Qed.

(** ** Viewing a post *)

Lemma increment_view_count_step (post_id : value) (v : Z) (w : world) :
  post_id <> Val Null ->
  undisturbed w ->
  has_views (store w) post_id v ->
  increment_view_count post_id w
  = (inr tt,
     with_store
       (set_table "posts"
          (map (fun r => if matches [Eq "id" post_id] r
                         then dict [("views", Val (Int (v + 1)))] ∪ r else r)
               (posts (store w)))
          (store w))
       (pop (pop w))).
Proof.
  intros Hnn Hq [(p & Hp & Hid) Hall].
  unfold increment_view_count, try_except, bind.
  rewrite execute_unfold, (undisturbed_calm w Hq). cbn. unfold run_select. cbn.
  rewrite ordered_none.
  destruct (filter_first (matches [Eq "id" post_id]) (posts (store w)) p Hp)
    as (y & rest & -> & Hy & Hmy).
  { rewrite matches_id by exact Hnn. apply bool_decide_eq_true_2. exact Hid. }
  cbn. rewrite getitem_project by plain_columns. cbn.
  rewrite (Hall y Hy).
  2:{ rewrite matches_id in Hmy by exact Hnn. apply bool_decide_eq_true_1 in Hmy. exact Hmy. }
  cbn. rewrite execute_unfold.
  rewrite (undisturbed_calm (pop w) (undisturbed_pop w Hq)). cbn.
  reflexivity.
Qed.

Lemma has_views_step d post_id v :
  post_id <> Val Null ->
  has_views d post_id v ->
  has_views
    (set_table "posts"
       (map (fun r => if matches [Eq "id" post_id] r
                      then dict [("views", Val (Int (v + 1)))] ∪ r else r)
            (posts d)) d)
    post_id (v + 1).
Proof.
  intros Hnn [(p & Hp & Hid) Hall]. split; cbn.
  - exists (dict [("views", Val (Int (v + 1)))] ∪ p). split.
    + apply in_map_iff. exists p. split; [| exact Hp].
      rewrite matches_id by exact Hnn.
      rewrite bool_decide_eq_true_2 by exact Hid. reflexivity.
    + rewrite cell_patched. cbn. exact Hid.
  - intros q Hq Hqid. apply in_map_iff in Hq as (r & <- & Hr).
    rewrite matches_id in Hqid |- * by exact Hnn.
    destruct (bool_decide (cell r "id" = post_id)) eqn:E.
    + rewrite cell_patched. reflexivity.
    + apply bool_decide_eq_false_1 in E. contradiction.
Qed.

(** C3. In a world where no request fails, [increment_view_count]
    called N times in a row on a post of the store with v views returns
    each time and leaves the post with v + N views. *)
Theorem increment_view_count_n_times (post_id : value) (v : Z) (n : nat) (w : world) :
  post_id <> Val Null ->
  undisturbed w ->
  has_views (store w) post_id v ->
  run (times n (increment_view_count post_id)) w = inr tt
  /\ has_views (store (after (times n (increment_view_count post_id)) w))
               post_id (v + Z.of_nat n).
Proof.
  intros Hnn. revert v w.
  induction n as [| n IH]; intros v w Hq Hv.
  - cbn. rewrite Z.add_0_r. split; [reflexivity | exact Hv].
  - unfold run, after in *. cbn [times].
    rewrite (bind_step _ _ _ _ _ (increment_view_count_step post_id v w Hnn Hq Hv)).
    replace (v + Z.of_nat (S n)) with ((v + 1) + Z.of_nat n) by lia.
    apply IH.
    + auto with world.
    + apply has_views_step; assumption.
Qed.

Lemma increment_view_count_sample :
  run (times 3 (increment_view_count (Val (Int 3)))) sample = inr tt
  /\ has_views (store (after (times 3 (increment_view_count (Val (Int 3)))) sample))
               (Val (Int 3)) 8.
Proof.
  apply (increment_view_count_n_times (Val (Int 3)) 5 3 sample).
  - discriminate.
  - constructor.
  - split.
    + eexists. split; [left; reflexivity |]. read_cells. reflexivity.
    + intros p Hp _. cbn in Hp. destruct Hp as [<- | []]. read_cells. reflexivity.
Defined.

Example post_then_view :
  run (id <- create_post (Val (Int 1)) "Hi"
             "Fifty characters or more are asked of a post's content." "Technology";;
       before <- get_all_posts;;
       increment_view_count (default (Val Null) id);;
       post <- get_post_by_id (default (Val Null) id);;
       ret (map (fun p => cell p "views") before,
            option_map (fun p => cell p "views") post))
      (quiet empty_db)
  = inr ([Val (Int 0)], Some (Val (Int 1))).
Proof. vm_compute. reflexivity. Qed.

(** ** Deleting a post *)

Lemma delete_post_store pid w w' :
  delete_post pid w = (inr true, w') ->
  comments (store w')
  = List.filter (fun r => negb (matches [Eq "post_id" pid] r)) (comments (store w))
  /\ likes (store w')
     = List.filter (fun r => negb (matches [Eq "post_id" pid] r)) (likes (store w)).
Proof.
  intros H. apply try_returns_other in H; [| discriminate].
  apply bind_returns in H as (r1 & w1 & H1 & H).
  apply bind_returns in H as (r2 & w2 & H2 & H).
  apply bind_returns in H as (r3 & w3 & H3 & H).
  injection H as <-.
  apply delete_returns in H1 as (rows1 & T1 & ->).
  apply delete_returns in H2 as (rows2 & T2 & ->).
  apply delete_returns in H3 as (rows3 & T3 & ->).
  cbn in T1, T2, T3. injection T1 as <-. injection T2 as <-. injection T3 as <-.
  split; reflexivity.
Qed.

Lemma get_comments_none pid w :
  List.filter (matches [Eq "post_id" pid]) (comments (store w)) = [] ->
  run (get_comments pid) w = inr [].
Proof.
  intros Hnone. unfold run, get_comments, try_except_Exception, bind.
  rewrite execute_unfold. cbn.
  destruct (hd None (faults w)) as [f |].
  - rewrite is_Exception_fault. reflexivity.
  - unfold run_select. cbn. rewrite Hnone, ordered_nil. reflexivity.
Qed.

Lemma get_like_count_none pid w :
  List.filter (matches [Eq "post_id" pid]) (likes (store w)) = [] ->
  run (get_like_count pid) w = inr (Some 0).
Proof.
  intros Hnone. unfold run, get_like_count, try_except, bind.
  rewrite execute_unfold. cbn.
  destruct (hd None (faults w)) as [f |]; [reflexivity |].
  unfold run_select. cbn. rewrite Hnone. reflexivity.
Qed.

(** C4. After [delete_post(post_id)] has succeeded, no comment and no
    like of that post is left in the store, [get_comments(post_id)]
    gives the empty list and [get_like_count(post_id)] gives zero. *)
Theorem delete_post_clears_comments_and_likes (post_id : value) (w w' : world) :
  delete_post post_id w = (inr true, w') ->
  (post_id <> Val Null ->
   forall r, In r (comments (store w') ++ likes (store w')) ->
             cell r "post_id" <> post_id)
  /\ run (get_comments post_id) w' = inr []
  /\ run (get_like_count post_id) w' = inr (Some 0).
Proof.
  intros H. apply delete_post_store in H as [Hc Hl].
  split; [| split].
  - intros Hnn r Hr Heq.
    assert (Hin : In r (List.filter (fun r => negb (matches [Eq "post_id" post_id] r))
                          (comments (store w) ++ likes (store w)))).
    { rewrite List.filter_app, <- Hc, <- Hl. exact Hr. }
    apply filter_In in Hin as [_ Hin].
    unfold matches in Hin. cbn in Hin. rewrite holds_eq in Hin by exact Hnn.
    rewrite bool_decide_eq_true_2 in Hin by exact Heq. discriminate.
  - apply get_comments_none. rewrite Hc. apply filter_after_delete.
  - apply get_like_count_none. rewrite Hl. apply filter_after_delete.
Qed.

Lemma delete_post_sample :
  run (get_comments (Val (Int 3))) (after (delete_post (Val (Int 3))) sample) = inr []
  /\ run (get_like_count (Val (Int 3))) (after (delete_post (Val (Int 3))) sample)
     = inr (Some 0).
Proof.
  apply (delete_post_clears_comments_and_likes (Val (Int 3)) sample
           (after (delete_post (Val (Int 3))) sample)).
  vm_compute. reflexivity.
Defined.

(** ** Counting comments *)

(** C5. [get_comment_count(post_id)] is the number of comments of the
    post whose parent_id is null when its request goes through, and
    zero when the request fails: a reply is never counted. *)
Theorem get_comment_count_counts_roots_only (post_id : value) (w : world) :
  post_id <> Val Null ->
  run (get_comment_count post_id) w
  = inr (Some (match hd None (faults w) with
               | None => Z.of_nat (length (List.filter (root_comment_of post_id)
                                                       (comments (store w))))
               | Some _ => 0
               end)).
Proof.
  intros Hnn. unfold run, get_comment_count, try_except, bind.
  rewrite execute_unfold. cbn.
  destruct (hd None (faults w)); [reflexivity |].
  unfold run_select. cbn. rewrite ordered_none.
  rewrite (List.filter_ext _ _ (fun r => matches_root post_id r Hnn)). reflexivity.
Qed.

Lemma get_comment_count_sample :
  run (get_comment_count (Val (Int 3))) sample = inr (Some 1).
Proof.
  apply (get_comment_count_counts_roots_only (Val (Int 3)) sample).
  discriminate.
Defined.

Example comment_then_reply :
  run (c1 <- add_comment (Val (Int 3)) (Val (Int 2)) "C1" (Val Null);;
       add_comment (Val (Int 3)) (Val (Int 1)) "R1" (default (Val Null) c1);;
       cs <- get_comments (Val (Int 3));;
       n <- get_comment_count (Val (Int 3));;
       ret (length cs, n))
      (quiet (Db (users sample_db) (posts sample_db) [] [] 9))
  = inr (2%nat, Some 1).
Proof. vm_compute. reflexivity. Qed.

(** ** Likes *)

Lemma add_like_succeeds (post_id user_id : value) (w : world) :
  calm w ->
  exists w1,
    add_like post_id user_id w = (inr true, w1)
    /\ likes (store w1) = likes (store w) ++ [new_like post_id user_id w]
    /\ seq (store w1) = seq (store w) + 1
    /\ faults w1 = tl (faults w).
Proof.
  intros Hq. unfold add_like, try_except_Exception, bind, datetime_now.
  rewrite execute_unfold. cbn. unfold calm in Hq. rewrite Hq.
  unfold run_insert. cbn.
  replace (violates_unique _ _ _) with false by reflexivity.
  cbn. eexists. repeat split.
Qed.

Lemma get_like_count_counts (post_id : value) (w : world) :
  post_id <> Val Null ->
  calm w ->
  run (get_like_count post_id) w
  = inr (Some (Z.of_nat (length (likes_of (store w) post_id)))).
Proof.
  intros Hnn Hq. unfold run, get_like_count, try_except, bind.
  rewrite execute_unfold, Hq. cbn. unfold run_select. cbn.
  rewrite ordered_none. unfold likes_of.
  rewrite (List.filter_ext _ _ (fun l => matches_post post_id l Hnn)). reflexivity.
Qed.

Example two_likes_on_a_fresh_post :
  run (add_like (Val (Int 4)) (Val (Int 3));;
       add_like (Val (Int 4)) (Val (Int 3));;
       get_like_count (Val (Int 4)))
      (after (remove_like (Val (Int 4)) (Val (Int 2))) liked_once)
  = inr (Some 2).
Proof. vm_compute. reflexivity. Qed.

(** C8, as the spec words it, fails on a post that has a like already:
    two more likes make three. *)
Lemma two_likes_on_a_liked_post :
  run (add_like (Val (Int 4)) (Val (Int 3));;
       add_like (Val (Int 4)) (Val (Int 3));;
       get_like_count (Val (Int 4))) liked_once
  = inr (Some 3)
  /\ run (add_like (Val (Int 4)) (Val (Int 3));;
          add_like (Val (Int 4)) (Val (Int 3));;
          get_like_count (Val (Int 4))) liked_once
     <> inr (Some 2).
Proof. split; [vm_compute; reflexivity | vm_compute; discriminate]. Qed.

(** C8, amended. In a world where no request fails, two [add_like]
    calls for the same post and user both succeed and add two rows with
    different ids, and [get_like_count] then gives the number of likes
    the post had plus two: 2 for a post without likes. *)
Theorem add_like_twice_counts_twice (post_id user_id : value) (w : world) :
  post_id <> Val Null ->
  undisturbed w ->
  exists (l1 l2 : row) (w1 w2 : world),
    add_like post_id user_id w = (inr true, w1)
    /\ add_like post_id user_id w1 = (inr true, w2)
    /\ likes (store w2) = likes (store w) ++ [l1; l2]
    /\ cell l1 "id" <> cell l2 "id"
    /\ like_by post_id user_id l1 = true
    /\ like_by post_id user_id l2 = true
    /\ run (get_like_count post_id) w2
       = inr (Some (Z.of_nat (length (likes_of (store w) post_id)) + 2)).
Proof.
  intros Hnn Hq.
  destruct (add_like_succeeds post_id user_id w) as (w1 & H1 & L1 & S1 & F1);
    [auto with world |].
  assert (Hq1 : undisturbed w1).
  { unfold undisturbed. rewrite F1. apply (undisturbed_pop w Hq). }
  destruct (add_like_succeeds post_id user_id w1) as (w2 & H2 & L2 & S2 & F2);
    [auto with world |].
  assert (Hq2 : undisturbed w2).
  { unfold undisturbed. rewrite F2. apply (undisturbed_pop w1 Hq1). }
  exists (new_like post_id user_id w), (new_like post_id user_id w1), w1, w2.
  split; [exact H1 |]. split; [exact H2 |].
  split; [rewrite L2, L1, <- app_assoc; reflexivity |].
  split; [| split; [| split]].
  - unfold new_like. read_cells. rewrite S1. intros E. injection E. lia.
  - unfold new_like, like_by. read_cells.
    rewrite !bool_decide_eq_true_2 by reflexivity. reflexivity.
  - unfold new_like, like_by. read_cells.
    rewrite !bool_decide_eq_true_2 by reflexivity. reflexivity.
  - rewrite get_like_count_counts by auto with world.
    unfold likes_of. rewrite L2, L1, !List.filter_app, !length_app. cbn.
    unfold like_of_post, new_like. read_cells.
    rewrite !bool_decide_eq_true_2 by reflexivity. cbn. do 2 f_equal. lia.
Qed.

Lemma add_like_twice_sample :
  exists (l1 l2 : row) (w1 w2 : world),
    add_like (Val (Int 3)) (Val (Int 1)) sample = (inr true, w1)
    /\ add_like (Val (Int 3)) (Val (Int 1)) w1 = (inr true, w2)
    /\ likes (store w2) = likes (store sample) ++ [l1; l2]
    /\ cell l1 "id" <> cell l2 "id"
    /\ like_by (Val (Int 3)) (Val (Int 1)) l1 = true
    /\ like_by (Val (Int 3)) (Val (Int 1)) l2 = true
    /\ run (get_like_count (Val (Int 3))) w2
       = inr (Some (Z.of_nat (length (likes_of (store sample) (Val (Int 3)))) + 2)).
Proof.
  apply (add_like_twice_counts_twice (Val (Int 3)) (Val (Int 1)) sample).
  - discriminate.
  - constructor.
Defined.

Lemma remove_like_store post_id user_id w w' :
  remove_like post_id user_id w = (inr true, w') ->
  likes (store w')
  = List.filter (fun l => negb (matches [Eq "post_id" post_id; Eq "user_id" user_id] l))
                (likes (store w)).
Proof.
  intros H. apply try_returns_other in H; [| discriminate].
  apply bind_returns in H as (r & w1 & H1 & H). injection H as <-.
  apply delete_returns in H1 as (rows & T & ->).
  cbn in T. injection T as <-. reflexivity.
Qed.

Lemma check_user_liked_none post_id user_id w :
  List.filter (matches [Eq "post_id" post_id; Eq "user_id" user_id]) (likes (store w)) = [] ->
  run (check_user_liked post_id user_id) w = inr false.
Proof.
  intros Hnone. unfold run, check_user_liked, try_except, bind.
  rewrite execute_unfold. cbn.
  destruct (hd None (faults w)) as [f |]; [reflexivity |].
  unfold run_select. cbn. rewrite Hnone. reflexivity.
Qed.

(** C10. After one [remove_like(post_id, user_id)] that succeeded, the
    store keeps the other likes and none of that user for that post,
    however many there were; [check_user_liked] gives false, and
    [get_like_count], when its request goes through, counts the likes
    of the post by the other users only. *)
Theorem remove_like_removes_all_duplicates (post_id user_id : value) (w w' : world) :
  post_id <> Val Null ->
  user_id <> Val Null ->
  remove_like post_id user_id w = (inr true, w') ->
  likes (store w')
  = List.filter (fun l => negb (like_by post_id user_id l)) (likes (store w))
  /\ (forall l, In l (likes (store w')) -> like_by post_id user_id l = false)
  /\ run (check_user_liked post_id user_id) w' = inr false
  /\ (calm w' ->
      run (get_like_count post_id) w'
      = inr (Some (Z.of_nat (length
                (List.filter (fun l => like_of_post post_id l
                                       && negb (bool_decide (cell l "user_id" = user_id)))
                             (likes (store w))))))).
Proof.
  intros Hp Hu H. apply remove_like_store in H.
  rewrite (List.filter_ext _ (fun l => negb (like_by post_id user_id l))) in H
    by (intros l; rewrite matches_like by assumption; reflexivity).
  split; [exact H |]. split; [| split].
  - intros l Hl. rewrite H in Hl. apply filter_In in Hl as [_ Hl].
    apply negb_true_iff. exact Hl.
  - apply check_user_liked_none. rewrite H.
    rewrite (List.filter_ext _ (like_by post_id user_id))
      by (intros l; apply matches_like; assumption).
    apply filter_after_delete.
  - intros Hq. rewrite get_like_count_counts by assumption.
    unfold likes_of. rewrite H, filter_filter.
    do 4 f_equal. apply List.filter_ext. intros l.
    unfold like_by, like_of_post.
    destruct (bool_decide (cell l "post_id" = post_id)),
             (bool_decide (cell l "user_id" = user_id)); reflexivity.
Qed.

Lemma remove_like_sample :
  run (check_user_liked (Val (Int 3)) (Val (Int 2)))
      (after (remove_like (Val (Int 3)) (Val (Int 2))) sample) = inr false
  /\ run (get_like_count (Val (Int 3)))
         (after (remove_like (Val (Int 3)) (Val (Int 2))) sample) = inr (Some 1).
Proof.
  destruct (remove_like_removes_all_duplicates (Val (Int 3)) (Val (Int 2)) sample
              (after (remove_like (Val (Int 3)) (Val (Int 2))) sample))
    as (_ & _ & Hliked & Hcount).
  - discriminate.
  - discriminate.
  - vm_compute. reflexivity.
  - split; [exact Hliked |]. rewrite Hcount; [| reflexivity].
    vm_compute. reflexivity.
Defined.

(** ** Failures of the store *)

Lemma same_but_kinds_refl w : same_but_kinds w w.
Proof.
  repeat split. induction (faults w) as [| [f |] fs IH]; constructor; cbn; trivial.
Qed.

Lemma blind_ret {A} (x : A) : blind (ret x).
Proof. intros w1 w2 H. split; [exact H | reflexivity]. Qed.

Lemma blind_raise {A} e : is_Exception e = true -> blind (@raise A e).
Proof. intros He w1 w2 H. split; [exact H | split; exact He]. Qed.

Lemma blind_bind {A B} (m : M A) (k : A -> M B) :
  blind m -> (forall x, blind (k x)) -> blind (bind m k).
Proof.
  intros Hm Hk w1 w2 H. unfold bind.
  specialize (Hm w1 w2 H). unfold same_outcome in Hm.
  destruct (m w1) as [[e1 | x1] w1'], (m w2) as [[e2 | x2] w2']; cbn in Hm;
    destruct Hm as [Hw Hm]; try contradiction.
  - split; [exact Hw | exact Hm].
  - subst x2. apply Hk. exact Hw.
Qed.

Lemma blind_get_db : blind get_db.
Proof. intros w1 w2 H. split; [exact H |]. cbn. apply H. Qed.

Lemma blind_put_db d : blind (put_db d).
Proof.
  intros w1 w2 (Hs & Hc & Hse & Hv & Hr & Hf). split; [| reflexivity].
  repeat split; assumption.
Qed.

Lemma blind_datetime_now : blind datetime_now.
Proof.
  intros w1 w2 (Hs & Hc & Hse & Hv & Hr & Hf). split.
  - repeat split; cbn; try assumption. rewrite Hc. reflexivity.
  - cbn. rewrite Hc. reflexivity.
Qed.

Lemma blind_request : blind request.
Proof.
  intros w1 w2 (Hs & Hc & Hse & Hv & Hr & Hf). unfold request, same_outcome, pop.
  destruct (faults w1) as [| a fs1] eqn:E1, (faults w2) as [| b fs2] eqn:E2;
    inversion Hf as [| ? ? ? ? Hab Hfs]; subst.
  - cbn. repeat split; cbn; auto.
  - destruct a as [fa |], b as [fb |]; cbn in Hab; try contradiction; cbn.
    + repeat split; cbn; auto; apply is_Exception_fault.
    + repeat split; cbn; auto.
Qed.

Lemma blind_if {A} (b : bool) (m1 m2 : M A) :
  blind m1 -> blind m2 -> blind (if b then m1 else m2).
Proof. destruct b; auto. Qed.

Lemma blind_execute q : blind (execute q).
Proof.
  unfold execute.
  apply blind_bind; [apply blind_request | intros _].
  apply blind_bind; [apply blind_get_db | intros d].
  destruct (get_table (q_table q) d) as [rows |]; [| apply blind_raise; reflexivity].
  destruct (q_verb q) as [cols exact | r | rs | patch |].
  - unfold run_select. apply blind_if; [apply blind_ret | apply blind_raise; reflexivity].
  - unfold run_insert. apply blind_if; [apply blind_raise; reflexivity |].
    apply blind_bind; [apply blind_put_db | intros _; apply blind_ret].
  - unfold run_insert_many.
    destruct (place _ _ _ _) as [[rows' new] |]; [| apply blind_raise; reflexivity].
    apply blind_bind; [apply blind_put_db | intros _; apply blind_ret].
  - unfold run_update. apply blind_bind; [apply blind_put_db | intros _; apply blind_ret].
  - unfold run_delete. apply blind_bind; [apply blind_put_db | intros _; apply blind_ret].
Qed.

Lemma blind_getitem r k : blind (getitem r k).
Proof.
  unfold getitem. destruct (r !! k); [apply blind_ret | apply blind_raise; reflexivity].
Qed.

Lemma blind_py_add v n : blind (py_add v n).
Proof.
  unfold py_add. destruct v as [[| a | s] | o];
    first [apply blind_ret | apply blind_raise; reflexivity].
Qed.

Lemma blind_index {A} (l : list A) i : blind (index l i).
Proof.
  unfold index. destruct (nth_error l i); [apply blind_ret | apply blind_raise; reflexivity].
Qed.

Lemma blind_map_m {A B} (f : A -> M B) (l : list A) :
  (forall x, blind (f x)) -> blind (map_m f l).
Proof.
  intros Hf. induction l as [| x l IH]; cbn [map_m]; [apply blind_ret |].
  apply blind_bind; [apply Hf | intros y].
  apply blind_bind; [exact IH | intros ys; apply blind_ret].
Qed.

(** What [try] makes of a blind body: nothing is raised any more. *)
Lemma blind_try_Exception {A} (body : M A) (d : A) :
  blind body -> blind (try_except_Exception body (fun _ => ret d)).
Proof.
  intros Hb w1 w2 H. specialize (Hb w1 w2 H).
  unfold try_except_Exception, same_outcome in *.
  destruct (body w1) as [[e1 | x1] w1'], (body w2) as [[e2 | x2] w2']; cbn in Hb;
    destruct Hb as [Hw Hb]; try contradiction.
  - destruct Hb as [-> ->]. cbn. auto.
  - cbn. auto.
Qed.

Lemma blind_try {A} (body : M A) (d : A) :
  blind body -> blind (try_except body (fun _ => ret d)).
Proof.
  intros Hb w1 w2 H. specialize (Hb w1 w2 H).
  unfold try_except, same_outcome in *.
  destruct (body w1) as [[e1 | x1] w1'], (body w2) as [[e2 | x2] w2']; cbn in Hb;
    destruct Hb as [Hw Hb]; try contradiction; cbn; auto.
Qed.

Lemma returns_try_Exception {A} (body : M A) (d : A) :
  blind body -> returns (try_except_Exception body (fun _ => ret d)).
Proof.
  intros Hb w. specialize (Hb w w (same_but_kinds_refl w)).
  unfold run, try_except_Exception, same_outcome in *.
  destruct (body w) as [[e | x] w']; cbn in Hb |- *.
  - destruct Hb as [_ [-> _]]. eexists. reflexivity.
  - eexists. reflexivity.
Qed.

Lemma returns_try {A} (body : M A) (d : A) :
  returns (try_except body (fun _ => ret d)).
Proof.
  intros w. unfold run, try_except.
  destruct (body w) as [[e | x] w']; eexists; reflexivity.
Qed.

Ltac blind_body :=
  cbv zeta;
  repeat first
    [ apply blind_ret
    | apply blind_execute
    | apply blind_getitem
    | apply blind_py_add
    | apply blind_index
    | apply blind_map_m; intros ?
    | apply blind_datetime_now
    | apply blind_if
    | apply blind_bind; [| intros ?]
    | match goal with
      | |- blind (match ?l with [] => _ | _ :: _ => _ end) => destruct l
      end ].

Ltac first_request_fails :=
  let w := fresh "w" in
  let f := fresh "f" in
  let Hf := fresh "Hf" in
  intros w f Hf;
  unfold run, try_except_Exception, try_except, bind, datetime_now; cbn;
  rewrite execute_unfold; cbn; rewrite Hf; cbn;
  rewrite ?is_Exception_fault; reflexivity.

Ltac graceful_Exception :=
  split; [apply returns_try_Exception; blind_body |];
  split; [first_request_fails | apply blind_try_Exception; blind_body].

Ltac graceful_bare :=
  split; [apply returns_try |];
  split; [first_request_fails | apply blind_try; blind_body].

Lemma create_user_graceful username email password bio :
  graceful (create_user username email password bio) false.
Proof. unfold create_user. graceful_Exception. Qed.

Lemma authenticate_user_graceful username password :
  graceful (authenticate_user username password) None.
Proof. unfold authenticate_user. graceful_Exception. Qed.

Lemma get_user_by_id_graceful user_id : graceful (get_user_by_id user_id) None.
Proof. unfold get_user_by_id. graceful_Exception. Qed.

Lemma update_user_profile_graceful user_id email bio :
  graceful (update_user_profile user_id email bio) false.
Proof. unfold update_user_profile. graceful_Exception. Qed.

Lemma create_post_graceful user_id title content category :
  graceful (create_post user_id title content category) None.
Proof. unfold create_post. graceful_Exception. Qed.

Lemma get_all_posts_graceful : graceful get_all_posts [].
Proof. unfold get_all_posts. graceful_Exception. Qed.

Lemma get_post_by_id_graceful post_id : graceful (get_post_by_id post_id) None.
Proof. unfold get_post_by_id. graceful_Exception. Qed.

Lemma get_user_posts_graceful user_id : graceful (get_user_posts user_id) [].
Proof. unfold get_user_posts. graceful_Exception. Qed.

Lemma update_post_graceful post_id title content category :
  graceful (update_post post_id title content category) false.
Proof. unfold update_post. graceful_Exception. Qed.

Lemma delete_post_graceful post_id : graceful (delete_post post_id) false.
Proof. unfold delete_post. graceful_Exception. Qed.

Lemma increment_view_count_graceful post_id :
  graceful (increment_view_count post_id) tt.
Proof. unfold increment_view_count. graceful_bare. Qed.

Lemma add_comment_graceful post_id user_id content parent_id :
  graceful (add_comment post_id user_id content parent_id) None.
Proof. unfold add_comment. graceful_Exception. Qed.

Lemma get_comments_graceful post_id : graceful (get_comments post_id) [].
Proof. unfold get_comments. graceful_Exception. Qed.

Lemma add_like_graceful post_id user_id : graceful (add_like post_id user_id) false.
Proof. unfold add_like. graceful_Exception. Qed.

Lemma remove_like_graceful post_id user_id :
  graceful (remove_like post_id user_id) false.
Proof. unfold remove_like. graceful_Exception. Qed.

Lemma get_like_count_graceful post_id : graceful (get_like_count post_id) (Some 0).
Proof. unfold get_like_count. graceful_bare. Qed.

Lemma check_user_liked_graceful post_id user_id :
  graceful (check_user_liked post_id user_id) false.
Proof. unfold check_user_liked. graceful_bare. Qed.

Lemma get_comment_count_graceful post_id :
  graceful (get_comment_count post_id) (Some 0).
Proof. unfold get_comment_count. graceful_bare. Qed.

Lemma get_total_users_graceful : graceful get_total_users (Some 0).
Proof. unfold get_total_users. graceful_bare. Qed.

Lemma get_total_posts_graceful : graceful get_total_posts (Some 0).
Proof. unfold get_total_posts. graceful_bare. Qed.

Lemma add_sample_data_graceful : graceful add_sample_data tt.
Proof.
  unfold add_sample_data, sample_user, sample_post. graceful_Exception.
Qed.

Lemma change_password_blind user_id old_password new_password :
  blind (change_password user_id old_password new_password).
Proof.
  unfold change_password. apply blind_try_Exception.
  apply blind_bind; [apply get_user_by_id_graceful | intros user].
  blind_body.
Qed.

Lemma change_password_returns user_id old_password new_password :
  returns (change_password user_id old_password new_password).
Proof.
  intros w. unfold run. rewrite change_password_unfold.
  repeat match goal with
         | |- context [match ?x with _ => _ end] => destruct x
         end; eexists; reflexivity.
Qed.

(** Its first request is the one of [get_user_by_id], whose result it
    does not use; a failure of the second or of the third gives false. *)
Lemma change_password_falls_back user_id old_password new_password w :
  hd None (faults (pop w)) <> None \/ hd None (faults (pop (pop w))) <> None ->
  run (change_password user_id old_password new_password) w = inr false.
Proof.
  unfold run. rewrite change_password_unfold. intros H.
  destruct (hd None (faults (pop w))); [reflexivity |].
  destruct (List.filter _ _); [reflexivity |].
  destruct (bool_decide _); [| reflexivity].
  destruct (hd None (faults (pop (pop w)))); [reflexivity |].
  destruct H as [H | H]; contradiction.
Qed.

Lemma delete_post_falls_back post_id w :
  hd None (faults w) <> None
  \/ hd None (faults (pop w)) <> None
  \/ hd None (faults (pop (pop w))) <> None ->
  run (delete_post post_id) w = inr false.
Proof.
  intros H. cbn in H. unfold run, delete_post, try_except_Exception, bind.
  rewrite execute_unfold. cbn.
  destruct (hd None (faults w)); [rewrite is_Exception_fault; reflexivity |].
  unfold ret at 1. cbn. rewrite execute_unfold. cbn.
  destruct (hd None (tl (faults w))); [rewrite is_Exception_fault; reflexivity |].
  unfold ret at 1. cbn. rewrite execute_unfold. cbn.
  destruct (hd None (tl (tl (faults w)))); [rewrite is_Exception_fault; reflexivity |].
  destruct H as [H | [H | H]]; congruence.
Qed.

Lemma create_user_taken username email password bio w :
  (exists u, In u (users (store w)) /\ cell u "username" = Val (Str username)) ->
  run (create_user username email password bio) w = inr false.
Proof.
  intros (u & Hu & Hname).
  unfold run, create_user, try_except_Exception, bind, datetime_now.
  rewrite execute_unfold. cbn.
  destruct (hd None (faults w)); [rewrite is_Exception_fault; reflexivity |].
  unfold run_insert. cbn.
  replace (violates_unique _ _ _) with true; [reflexivity |].
  symmetry. unfold violates_unique. cbn. read_cells. cbn.
  apply existsb_exists. exists u. split; [exact Hu |].
  read_cells. apply bool_decide_eq_true_2. exact Hname.
Qed.

(** C6. Every data-access function catches the failure of its request
    and gives its fallback (false, none, the empty list or zero) in its
    place, the same whatever the kind of the failure, and none lets an
    exception out; [create_user] gives false for a username that is
    taken as for any other failure. *)
Theorem data_access_failures_collapse :
  (forall username email password bio,
      graceful (create_user username email password bio) false)
  /\ (forall username password, graceful (authenticate_user username password) None)
  /\ (forall user_id, graceful (get_user_by_id user_id) None)
  /\ (forall user_id email bio, graceful (update_user_profile user_id email bio) false)
  /\ (forall user_id old_password new_password,
         returns (change_password user_id old_password new_password)
         /\ blind (change_password user_id old_password new_password)
         /\ forall w,
              hd None (faults (pop w)) <> None \/ hd None (faults (pop (pop w))) <> None ->
              run (change_password user_id old_password new_password) w = inr false)
  /\ (forall user_id title content category,
         graceful (create_post user_id title content category) None)
  /\ graceful get_all_posts []
  /\ (forall post_id, graceful (get_post_by_id post_id) None)
  /\ (forall user_id, graceful (get_user_posts user_id) [])
  /\ (forall post_id title content category,
         graceful (update_post post_id title content category) false)
  /\ (forall post_id,
         graceful (delete_post post_id) false
         /\ forall w,
              hd None (faults w) <> None
              \/ hd None (faults (pop w)) <> None
              \/ hd None (faults (pop (pop w))) <> None ->
              run (delete_post post_id) w = inr false)
  /\ (forall post_id, graceful (increment_view_count post_id) tt)
  /\ (forall post_id user_id content parent_id,
         graceful (add_comment post_id user_id content parent_id) None)
  /\ (forall post_id, graceful (get_comments post_id) [])
  /\ (forall post_id user_id, graceful (add_like post_id user_id) false)
  /\ (forall post_id user_id, graceful (remove_like post_id user_id) false)
  /\ (forall post_id, graceful (get_like_count post_id) (Some 0))
  /\ (forall post_id user_id, graceful (check_user_liked post_id user_id) false)
  /\ (forall post_id, graceful (get_comment_count post_id) (Some 0))
  /\ graceful get_total_users (Some 0)
  /\ graceful get_total_posts (Some 0)
  /\ graceful add_sample_data tt
  /\ (forall username email password bio w,
         (exists u, In u (users (store w)) /\ cell u "username" = Val (Str username)) ->
         run (create_user username email password bio) w = inr false).
Proof.
  repeat match goal with |- _ /\ _ => split end.
  - apply create_user_graceful.
  - apply authenticate_user_graceful.
  - apply get_user_by_id_graceful.
  - apply update_user_profile_graceful.
  - intros. split; [apply change_password_returns |].
    split; [apply change_password_blind | apply change_password_falls_back].
  - apply create_post_graceful.
  - apply get_all_posts_graceful.
  - apply get_post_by_id_graceful.
  - apply get_user_posts_graceful.
  - apply update_post_graceful.
  - intros. split; [apply delete_post_graceful | apply delete_post_falls_back].
  - apply increment_view_count_graceful.
  - apply add_comment_graceful.
  - apply get_comments_graceful.
  - apply add_like_graceful.
  - apply remove_like_graceful.
  - apply get_like_count_graceful.
  - apply check_user_liked_graceful.
  - apply get_comment_count_graceful.
  - apply get_total_users_graceful.
  - apply get_total_posts_graceful.
  - apply add_sample_data_graceful.
  - apply create_user_taken.
Qed.

Lemma create_user_fails_alike_sample :
  run (create_user "cyd" "cyd@x.com" "secret3" "") sample_unreachable = inr false
  /\ run (create_user "cyd" "cyd@x.com" "secret3" "") sample_refusing = inr false
  /\ run (create_user "ann" "ann@y.com" "secret3" "") sample = inr false.
Proof.
  destruct data_access_failures_collapse as (Hcreate & H).
  destruct (Hcreate "cyd" "cyd@x.com" "secret3" "") as (_ & Hfalls & _).
  split; [apply (Hfalls sample_unreachable Unreachable); reflexivity |].
  split; [apply (Hfalls sample_refusing (Refused "42501")); reflexivity |].
  do 21 destruct H as (_ & H).
  apply H. eexists. split; [left; reflexivity |]. read_cells. reflexivity.
Defined.

Example sample_data_once :
  let w := after add_sample_data (quiet empty_db) in
  (length (users (store w)), length (posts (store w)),
   map (fun p => cell p "user_id") (posts (store w)))
  = (3%nat, 5%nat, [Val (Int 1); Val (Int 2); Val (Int 1); Val (Int 3); Val (Int 2)])
  /\ store (after add_sample_data w) = store w.
Proof. split; vm_compute; reflexivity. Qed.

(** ** The router *)

Section Router.

Variable str_lower : string -> string.
Variables page_browse page_create page_view_post page_my_posts
          page_edit_post page_profile page_auth : M unit.

Let main_ := main str_lower page_browse page_create page_view_post page_my_posts
                  page_edit_post page_profile page_auth.

Lemma visiting_as_is w :
  visiting (logged_in (session_state w)) (page (session_state w)) w = w.
Proof. destruct w as [d c f [] g r]. reflexivity. Qed.

(** The public pages reach their controllers, the session untouched. *)
Lemma main_anonymous_home w :
  main_ (visiting false "home" w) = page_home str_lower (visiting false "home" w).
Proof. reflexivity. Qed.

Lemma main_anonymous_browse w :
  main_ (visiting false "browse" w) = page_browse (visiting false "browse" w).
Proof. reflexivity. Qed.

Lemma main_anonymous_auth w :
  main_ (visiting false "auth" w) = page_auth (visiting false "auth" w).
Proof. reflexivity. Qed.

(** The pages that need a login send the anonymous visitor home. *)
Lemma main_anonymous_login_required p w :
  In p ["create"; "edit_post"; "my_posts"; "profile"] ->
  main_ (visiting false p w) = page_home str_lower (visiting false "home" w).
Proof.
  intros H. cbn in H.
  repeat (destruct H as [<- | H]; [reflexivity |]). destruct H.
Qed.

(** So does every page off the list of three. *)
Lemma main_anonymous_off_list p w :
  ~ In p ["home"; "browse"; "auth"] ->
  main_ (visiting false p w) = page_home str_lower (visiting false "home" w).
Proof.
  intros H. unfold main_, main, bind, get_session. cbn.
  rewrite bool_decide_eq_false_2 by (rewrite list_elem_of_In; exact H).
  reflexivity.
Qed.

(** Whatever else the session holds. *)
Lemma main_unauthenticated_off_list w :
  logged_in (session_state w) = false ->
  ~ In (page (session_state w)) ["home"; "browse"; "auth"] ->
  main_ w = page_home str_lower (visiting false "home" w).
Proof.
  intros Hanon Hoff. rewrite <- (visiting_as_is w) at 1. rewrite Hanon.
  rewrite main_anonymous_off_list by exact Hoff. reflexivity.
Qed.

(** Logged in, the post page reaches its controller. *)
Lemma main_logged_in_view_post w :
  main_ (visiting true "view_post" w) = page_view_post (visiting true "view_post" w).
Proof. reflexivity. Qed.

(** C1, where the code leaves it. The post page asks for no login, yet
    the anonymous visitor who asks for it is sent home: the session's
    page becomes home and the home controller runs, not the post's. *)
Theorem main_sends_anonymous_view_post_home w :
  main_ (visiting false "view_post" w)
  = page_home str_lower (visiting false "home" w).
Proof. reflexivity. Qed.

End Router.

(** ** The home page *)

Lemma get_all_posts_frame es w :
  get_all_posts (with_rendered es w)
  = (fst (get_all_posts w), with_rendered es (snd (get_all_posts w))).
Proof.
  unfold get_all_posts, try_except_Exception, bind.
  rewrite execute_frame.
  destruct (execute _ w) as [[e | r] w1]; cbn; [| reflexivity].
  destruct (is_Exception e); reflexivity.
Qed.

Lemma get_all_posts_returns w :
  exists ps, get_all_posts w = (inr ps, pop w).
Proof.
  unfold get_all_posts, try_except_Exception, bind.
  rewrite execute_unfold. cbn.
  destruct (hd None (faults w)) as [f |].
  - rewrite is_Exception_fault. eexists. reflexivity.
  - unfold run_select. cbn. eexists. reflexivity.
Qed.

Lemma get_like_count_returns post_id w :
  exists n, get_like_count post_id w = (inr n, pop w).
Proof.
  unfold get_like_count, try_except, bind.
  rewrite execute_unfold. cbn.
  destruct (hd None (faults w)) as [f |]; eexists; reflexivity.
Qed.

Lemma get_comment_count_returns post_id w :
  exists n, get_comment_count post_id w = (inr n, pop w).
Proof.
  unfold get_comment_count, try_except, bind.
  rewrite execute_unfold. cbn.
  destruct (hd None (faults w)) as [f |]; eexists; reflexivity.
Qed.

Lemma shown_posts_app es es' :
  shown_posts (es ++ es') = shown_posts es ++ shown_posts es'.
Proof. apply omap_app. Qed.

Lemma filter_m_reads {A} (keep : A -> M bool) (pure : A -> bool) :
  (forall x w, keep x w = (inr (pure x), w) \/ exists e, keep x w = (inl e, w)) ->
  forall l w,
    filter_m keep l w = (inr (List.filter pure l), w)
    \/ exists e, filter_m keep l w = (inl e, w).
Proof.
  intros Hkeep. induction l as [| x l IH]; intros w; [left; reflexivity |].
  cbn [filter_m List.filter].
  destruct (Hkeep x w) as [Hx | [e Hx]].
  - rewrite (bind_step _ _ _ _ _ Hx).
    destruct (IH w) as [Hl | [e Hl]].
    + rewrite (bind_step _ _ _ _ _ Hl). left. reflexivity.
    + rewrite (bind_raises _ _ _ _ _ Hl). right. exists e. reflexivity.
  - rewrite (bind_raises _ _ _ _ _ Hx). right. exists e. reflexivity.
Qed.

Lemma search_hit_reads str_lower search_lower p w :
  search_hit str_lower search_lower p w
  = (inr (search_matches str_lower search_lower p), w)
  \/ exists e, search_hit str_lower search_lower p w = (inl e, w).
Proof.
  unfold search_hit, search_matches, bind, getitem, lower.
  destruct (p !! "title") as [[[| n | title] | o] |]; cbn; eauto.
  destruct (contains search_lower (str_lower title)); cbn; eauto.
  destruct (p !! "content") as [[[| n | content] | o] |]; cbn; eauto.
Qed.

Lemma category_hit_reads category p w :
  category_hit category p w = (inr (category_matches category p), w)
  \/ exists e, category_hit category p w = (inl e, w).
Proof.
  unfold category_hit, category_matches, bind, getitem, cell.
  destruct (p !! "category") as [c |]; cbn; eauto.
Qed.

Lemma emit_eq e w : emit e w = (inr tt, with_rendered (rendered w ++ [e]) w).
Proof. reflexivity. Qed.

Lemma button_eq label key w :
  button label key w
  = (inr (bool_decide (key ∈ pressed (visitor w))),
     with_rendered (rendered w ++ [Button label key]) w).
Proof. reflexivity. Qed.

Lemma text_input_eq label w :
  text_input label w
  = (inr (typed_in (visitor w) label), with_rendered (rendered w ++ [Text_input label]) w).
Proof. reflexivity. Qed.

Lemma selectbox_eq label options w :
  selectbox label options w
  = (inr (chosen_in (visitor w) label options),
     with_rendered (rendered w ++ [Selectbox label options]) w).
Proof. reflexivity. Qed.

Ltac read_item post k w v :=
  let E := fresh "E" in
  let H := fresh "H" in
  destruct (getitem_cases post k w) as [(v & E & H) | [E H]]; step H; clear H;
  [| eexists _, _; split; [reflexivity |]; right; split; [discriminate | reflexivity] ].

Lemma get_excerpt_cases content n w :
  (exists v, get_excerpt content n w = (inr v, w))
  \/ get_excerpt content n w = (inl TypeError, w).
Proof.
  unfold get_excerpt.
  destruct content as [[| k | s] | o]; try (right; reflexivity).
  - destruct (n <? String.length s)%nat; left; eexists; reflexivity.
  - destruct (n <? size o)%nat; [right | left; eexists]; reflexivity.
Qed.

Ltac shown_so_far :=
  cbn [rendered with_rendered pop snd];
  rewrite ?shown_posts_app; cbn;
  rewrite ?app_nil_r; try reflexivity.

Ltac stops_shown :=
  eexists _, _; split; [reflexivity |]; left; shown_so_far.

Lemma home_card_shows post w :
  exists res w',
    home_card post w = (res, w')
    /\ (shown_posts (rendered w') = shown_posts (rendered w) ++ [cell post "id"]
        \/ (res <> inr tt /\ shown_posts (rendered w') = shown_posts (rendered w))).
Proof.
  unfold home_card.
  read_item post "id" w post_id.
  read_item post "title" w title.
  read_item post "content" w content.
  read_item post "category" w cat.
  read_item post "views" w views.
  read_item post "created_at" w created.
  read_item post "users" w user_obj.
  assert (Hid : cell post "id" = post_id) by (unfold cell; rewrite E; reflexivity).
  rewrite Hid. clear - w.
  step (emit_eq Card_open w).
  match goal with |- context [bind _ _ ?w1] => set (w1_ := w1) end.
  step (button_eq title ("home_post", post_id) w1_).
  match goal with |- context [bind _ _ ?w2] => set (w2_ := w2) end.
  destruct (bool_decide (("home_post", post_id) ∈ pressed (visitor w1_))).
  { subst w2_ w1_. stops_shown. }
  change (bind (ret tt) ?k w2_) with (k tt w2_). cbv beta.
  step (emit_eq (Badge (get_category_class cat) cat) w2_).
  match goal with |- context [bind _ _ ?w3] => set (w3_ := w3) end.
  step (emit_eq (Byline (get_author_name user_obj) created) w3_).
  match goal with |- context [bind _ _ ?w4] => set (w4_ := w4) end.
  destruct (get_excerpt_cases content 200 w4_) as [(excerpt & H) | H]; step H; clear H.
  2:{ subst w4_ w3_ w2_ w1_. stops_shown. }
  step (emit_eq (Write excerpt) w4_).
  match goal with |- context [bind _ _ ?w5] => set (w5_ := w5) end.
  step (emit_eq (Views views) w5_).
  match goal with |- context [bind _ _ ?w6] => set (w6_ := w6) end.
  destruct (get_like_count_returns post_id w6_) as [n H]; step H; clear H.
  step (emit_eq (Likes n) (pop w6_)).
  match goal with |- context [bind _ _ ?w7] => set (w7_ := w7) end.
  destruct (get_comment_count_returns post_id w7_) as [m H]; step H; clear H.
  step (emit_eq (Comments m) (pop w7_)).
  rewrite emit_eq.
  subst w7_ w6_ w5_ w4_ w3_ w2_ w1_. stops_shown.
Qed.

Lemma for_each_home_cards (l : list row) : forall w,
  exists res w' k,
    for_each l home_card w = (res, w')
    /\ shown_posts (rendered w')
       = shown_posts (rendered w) ++ map (fun p => cell p "id") (firstn k l)
    /\ (res = inr tt -> firstn k l = l).
Proof.
  induction l as [| p l IH]; intros w.
  - exists (inr tt), w, 0%nat. cbn. rewrite app_nil_r. auto.
  - cbn [for_each].
    destruct (home_card_shows p w) as (res1 & w1 & H1 & Hshown).
    destruct res1 as [e | []].
    + rewrite (bind_raises _ _ _ _ _ H1).
      destruct Hshown as [Hs | [_ Hs]].
      * exists (inl e), w1, 1%nat. cbn. split; [reflexivity |]. split; [exact Hs | discriminate].
      * exists (inl e), w1, 0%nat. cbn. rewrite app_nil_r.
        split; [reflexivity |]. split; [exact Hs | discriminate].
    + rewrite (bind_step _ _ _ _ _ H1).
      destruct Hshown as [Hs | [Hne _]]; [| congruence].
      destruct (IH w1) as (res & w' & k & H & Hs' & Hall).
      exists res, w', (S k). split; [exact H |]. split.
      * rewrite Hs', Hs, <- app_assoc. reflexivity.
      * intros Hres. cbn. rewrite (Hall Hres). reflexivity.
Qed.

Lemma page_home_run (str_lower : string -> string) (w : world) :
  let search := typed_in (visitor w) "🔍 Search posts..." in
  let category := chosen_in (visitor w) "Filter by category" categories in
  exists posts res w' k,
    get_all_posts w = (inr posts, pop w)
    /\ page_home str_lower w = (res, w')
    /\ shown_posts (rendered w')
       = shown_posts (rendered w)
         ++ map (fun p => cell p "id")
                (firstn k (home_selection str_lower search category posts))
    /\ (res = inr tt ->
        firstn k (home_selection str_lower search category posts)
        = home_selection str_lower search category posts).
Proof.
  intros search category.
  destruct (get_all_posts_returns w) as [posts Hposts].
  exists posts. unfold page_home.
  step (emit_eq (Title "📝 BlogSpace") w).
  match goal with |- context [bind _ _ ?w1] => set (w1_ := w1) end.
  step (emit_eq (Markdown "*A community platform for writers and readers*") w1_).
  match goal with |- context [bind _ _ ?w2] => set (w2_ := w2) end.
  step (emit_eq Divider w2_).
  match goal with |- context [bind _ _ ?w3] => set (w3_ := w3) end.
  step (text_input_eq "🔍 Search posts..." w3_).
  match goal with |- context [bind _ _ ?w4] => set (w4_ := w4) end.
  step (selectbox_eq "Filter by category" categories w4_).
  match goal with |- context [bind _ _ ?w5] => set (w5_ := w5) end.
  step (emit_eq Divider w5_).
  change (typed_in (visitor w3_) "🔍 Search posts...") with search.
  change (chosen_in (visitor w4_) "Filter by category" categories) with category.
  match goal with |- context [bind _ _ ?w6] => set (w6_ := w6) end.
  assert (Hall : get_all_posts w6_ = (inr posts, with_rendered (rendered w6_) (pop w))).
  { change w6_ with (with_rendered (rendered w6_) w).
    rewrite get_all_posts_frame, Hposts. reflexivity. }
  step Hall. clear Hall.
  set (w7_ := with_rendered (rendered w6_) (pop w)).
  assert (Hhead : shown_posts (rendered w7_) = shown_posts (rendered w)).
  { subst w7_ w6_ w5_ w4_ w3_ w2_ w1_. shown_so_far. }
  clearbody w7_. clear w1_ w2_ w3_ w4_ w5_ w6_.
  unfold home_selection.
  assert (Hstop : forall e,
    exists (res : exn + unit) (w' : world) (k : nat),
      get_all_posts w = (inr posts, pop w)
      /\ (inl e, w7_) = (res, w')
      /\ shown_posts (rendered w') = shown_posts (rendered w) ++ map (fun p => cell p "id")
            (firstn k (home_selection str_lower search category posts))
      /\ (res = inr tt -> firstn k (home_selection str_lower search category posts)
                          = home_selection str_lower search category posts)).
  { intros e. exists (inl e), w7_, 0%nat. cbn. rewrite app_nil_r.
    split; [exact Hposts |]. split; [reflexivity |]. split; [exact Hhead | discriminate]. }
  unfold home_selection in Hstop.
  set (found := if String.eqb search "" then posts
                else List.filter (search_matches str_lower (str_lower search)) posts) in *.
  assert (Hfound :
    (if negb (String.eqb search "")
     then filter_m (search_hit str_lower (str_lower search)) posts
     else ret posts) w7_ = (inr found, w7_)
    \/ exists e, (if negb (String.eqb search "")
                  then filter_m (search_hit str_lower (str_lower search)) posts
                  else ret posts) w7_ = (inl e, w7_)).
  { subst found. destruct (String.eqb search ""); cbn [negb]; [left; reflexivity |].
    apply filter_m_reads. intros x w0. apply search_hit_reads. }
  destruct Hfound as [H | [e H]]; step H; clear H; [| apply Hstop].
  set (filed := if String.eqb category "All" then found
                else List.filter (category_matches category) found) in *.
  assert (Hfiled :
    (if negb (String.eqb category "All")
     then filter_m (category_hit category) found
     else ret found) w7_ = (inr filed, w7_)
    \/ exists e, (if negb (String.eqb category "All")
                  then filter_m (category_hit category) found
                  else ret found) w7_ = (inl e, w7_)).
  { subst filed. destruct (String.eqb category "All"); cbn [negb]; [left; reflexivity |].
    apply filter_m_reads. intros x w0. apply category_hit_reads. }
  destruct Hfiled as [H | [e H]]; step H; clear H; [| apply Hstop].
  clear Hstop. clearbody filed. clear found.
  destruct filed as [| p filed].
  - exists (inr tt), (with_rendered
                        (rendered w7_ ++ [Info "No posts found. Be the first to create one! ✍️"])
                        w7_), 0%nat.
    split; [exact Hposts |]. split; [reflexivity |]. cbn.
    rewrite shown_posts_app, Hhead. cbn. auto.
  - destruct (for_each_home_cards (firstn 10 (p :: filed)) w7_)
      as (res & w' & k & H & Hs & Hres).
    exists res, w', k. rewrite Hhead in Hs. auto.
Qed.

(** C9. The home page puts on the page the title buttons of at most ten
    posts, the first of those that pass the search and the category
    filter among the result of [get_all_posts]; all of the first ten
    when the run reaches its end. *)
Theorem page_home_shows_at_most_ten (str_lower : string -> string) (w : world) :
  let search := typed_in (visitor w) "🔍 Search posts..." in
  let category := chosen_in (visitor w) "Filter by category" categories in
  exists (posts : list row) (shown : list value) (k : nat),
    run get_all_posts w = inr posts
    /\ shown_posts (rendered (after (page_home str_lower) w))
       = shown_posts (rendered w) ++ shown
    /\ (length shown <= 10)%nat
    /\ shown = map (fun p => cell p "id")
                   (firstn k (home_selection str_lower search category posts))
    /\ (run (page_home str_lower) w = inr tt ->
        shown = map (fun p => cell p "id")
                    (home_selection str_lower search category posts)).
Proof.
  intros search category.
  destruct (page_home_run str_lower w) as (posts & res & w' & k & Hposts & Hrun & Hs & Hres).
  fold search category in Hs, Hres.
  exists posts,
         (map (fun p => cell p "id")
              (firstn k (home_selection str_lower search category posts))), k.
  unfold run, after. rewrite Hposts, Hrun. cbn [fst snd].
  split; [reflexivity |]. split; [exact Hs |]. split; [| split; [reflexivity |]].
  - rewrite length_map. unfold home_selection.
    rewrite !length_take. lia.
  - intros ->. rewrite (Hres Logic.eq_refl). reflexivity.
Qed.

Example home_page_of_twelve_posts :
  let publish (n : nat) := create_post (Val (Int 1)) "Post"
        "Fifty characters or more are asked of a post's content." "Travel";; ret tt in
  let w := after (times 12 (publish 0%nat);; page_home ascii_lower) (quiet sample_db) in
  shown_posts (rendered w)
  = [Val (Int 3); Val (Int 9); Val (Int 10); Val (Int 11); Val (Int 12); Val (Int 13);
     Val (Int 14); Val (Int 15); Val (Int 16); Val (Int 17)].
Proof. vm_compute. reflexivity. Qed.

(** * More of the program *)

(** ** Requests that go through *)

Lemma select_goes_through t cols exact ks o w rows :
  calm w ->
  get_table t (store w) = Some rows ->
  forallb (valid_column t) cols = true ->
  execute (Query t (Select cols exact) ks o) w
  = (inr (Response (map (project (store w) t cols)
                        (ordered o (List.filter (matches ks) rows)))
                   (if exact
                    then Some (Z.of_nat (length (ordered o (List.filter (matches ks) rows))))
                    else None)),
     pop w).
Proof.
  intros Hq Ht Hc. rewrite execute_unfold. unfold calm in Hq. rewrite Hq.
  cbn [q_table q_verb q_conds q_order]. rewrite Ht. unfold run_select.
  cbn [q_table q_verb q_conds q_order]. rewrite Hc. reflexivity.
Qed.

Lemma insert_goes_through t r ks o w rows :
  calm w ->
  get_table t (store w) = Some rows ->
  violates_unique t r rows = false ->
  execute (Query t (Insert r) ks o) w
  = (inr (Response [<["id" := Val (Int (seq (store w)))]> r] None),
     with_store (bump_seq (set_table t (rows ++ [<["id" := Val (Int (seq (store w)))]> r])
                                     (store w)))
                (pop w)).
Proof.
  intros Hq Ht Hu. rewrite execute_unfold. unfold calm in Hq. rewrite Hq.
  cbn [q_table q_verb q_conds q_order]. rewrite Ht. unfold run_insert.
  cbn [q_table q_verb q_conds q_order]. rewrite Hu. reflexivity.
Qed.

Lemma update_goes_through t patch ks o w rows :
  calm w ->
  get_table t (store w) = Some rows ->
  execute (Query t (Update patch) ks o) w
  = (inr (Response (map (fun r => patch ∪ r) (List.filter (matches ks) rows)) None),
     with_store (set_table t (map (fun r => if matches ks r then patch ∪ r else r) rows)
                           (store w))
                (pop w)).
Proof.
  intros Hq Ht. rewrite execute_unfold. unfold calm in Hq. rewrite Hq.
  cbn [q_table q_verb q_conds q_order]. rewrite Ht. reflexivity.
Qed.

Lemma delete_goes_through t ks o w rows :
  calm w ->
  get_table t (store w) = Some rows ->
  execute (Query t Delete ks o) w
  = (inr (Response (List.filter (matches ks) rows) None),
     with_store (set_table t (List.filter (fun r => negb (matches ks r)) rows) (store w))
                (pop w)).
Proof.
  intros Hq Ht. rewrite execute_unfold. unfold calm in Hq. rewrite Hq.
  cbn [q_table q_verb q_conds q_order]. rewrite Ht. reflexivity.
Qed.

Lemma request_fails q w f :
  hd None (faults w) = Some f ->
  execute q w = (inl (exn_of_fault f), pop w).
Proof. intros H. rewrite execute_unfold, H. reflexivity. Qed.

(** ** Publishing and reading a post *)

Lemma create_post_succeeds (user_id : value) (title content category : string) (w : world) :
  calm w ->
  exists w1,
    create_post user_id title content category w
    = (inr (Some (Val (Int (seq (store w))))), w1)
    /\ posts (store w1) = posts (store w) ++ [new_post user_id title content category w]
    /\ users (store w1) = users (store w)
    /\ comments (store w1) = comments (store w)
    /\ likes (store w1) = likes (store w)
    /\ seq (store w1) = seq (store w) + 1
    /\ faults w1 = tl (faults w).
Proof.
  intros Hq. unfold create_post, try_except_Exception, bind, datetime_now.
  cbn [fst snd]. unfold table, insert.
  erewrite insert_goes_through; [| exact Hq | reflexivity | reflexivity].
  cbn [data]. unfold getitem. rewrite lookup_insert_eq.
  eexists. split; [reflexivity |]. repeat split.
Qed.

Lemma get_post_by_id_first (post_id : value) (w : world) y rest :
  calm w ->
  List.filter (matches [Eq "id" post_id]) (posts (store w)) = y :: rest ->
  get_post_by_id post_id w
  = (inr (Some (project (store w) "posts" post_columns y)), pop w).
Proof.
  intros Hq Hy. unfold get_post_by_id, try_except_Exception, bind, table, select, eq.
  cbn [q_table q_verb q_conds q_order app].
  erewrite select_goes_through; [| exact Hq | reflexivity | reflexivity].
  cbn [data]. rewrite ordered_none, Hy. reflexivity.
Qed.

Lemma get_post_by_id_none (post_id : value) (w : world) :
  List.filter (matches [Eq "id" post_id]) (posts (store w)) = [] ->
  run (get_post_by_id post_id) w = inr None.
Proof.
  intros Hnone. unfold run, get_post_by_id, try_except_Exception, bind.
  rewrite execute_unfold. cbn.
  destruct (hd None (faults w)) as [f |].
  - rewrite is_Exception_fault. reflexivity.
  - unfold run_select. cbn. rewrite Hnone, ordered_none. reflexivity.
Qed.

Lemma fresh_no_match d rows :
  fresh_table d rows ->
  List.filter (matches [Eq "id" (Val (Int (seq d)))]) rows = [].
Proof.
  intros Hf. apply filter_none. intros r Hr.
  destruct (Hf r Hr) as (n & Hid & Hn).
  rewrite matches_id by discriminate. apply bool_decide_eq_false_2.
  rewrite Hid. intros E. injection E as E. lia.
Qed.

(** What [create_post] has published, [get_post_by_id] gives back: in a
    store whose ids are the store's own and with no request failing,
    the id returned leads to a post with the owner, title, content and
    category given and no view yet. *)
Theorem create_post_then_get_post_by_id
    (user_id : value) (title content category : string) (w : world) :
  undisturbed w ->
  fresh_table (store w) (posts (store w)) ->
  exists (id : value) (p : row) (w1 w2 : world),
    create_post user_id title content category w = (inr (Some id), w1)
    /\ get_post_by_id id w1 = (inr (Some p), w2)
    /\ p !! "id" = Some id
    /\ p !! "user_id" = Some user_id
    /\ p !! "title" = Some (Val (Str title))
    /\ p !! "content" = Some (Val (Str content))
    /\ p !! "category" = Some (Val (Str category))
    /\ p !! "views" = Some (Val (Int 0)).
Proof.
  intros Hq Hfresh.
  destruct (create_post_succeeds user_id title content category w)
    as (w1 & Hcreate & Hposts & _ & _ & _ & _ & Hfaults); [auto with world |].
  assert (Hq1 : calm w1).
  { unfold calm. rewrite Hfaults. apply (undisturbed_calm (pop w)). auto with world. }
  assert (Hfilter :
    List.filter (matches [Eq "id" (Val (Int (seq (store w))))]) (posts (store w1))
    = [new_post user_id title content category w]).
  { rewrite Hposts, List.filter_app, (fresh_no_match _ _ Hfresh). cbn.
    rewrite matches_id by discriminate. unfold new_post at 1. read_cells.
    rewrite bool_decide_eq_true_2 by reflexivity. reflexivity. }
  exists (Val (Int (seq (store w)))),
         (project (store w1) "posts" post_columns (new_post user_id title content category w)),
         w1, (pop w1).
  split; [exact Hcreate |].
  split; [apply (get_post_by_id_first _ _ _ [] Hq1 Hfilter) |].
  unfold post_columns.
  repeat split; rewrite project_col by plain_columns;
    unfold new_post; read_cells; reflexivity.
Qed.

Lemma create_post_then_get_post_by_id_sample :
  exists (id : value) (p : row) (w1 w2 : world),
    create_post (Val (Int 2)) "Second" "Another post, long enough to be published too."
                "Travel" sample = (inr (Some id), w1)
    /\ get_post_by_id id w1 = (inr (Some p), w2)
    /\ p !! "id" = Some id
    /\ p !! "user_id" = Some (Val (Int 2))
    /\ p !! "title" = Some (Val (Str "Second"))
    /\ p !! "content" = Some (Val (Str "Another post, long enough to be published too."))
    /\ p !! "category" = Some (Val (Str "Travel"))
    /\ p !! "views" = Some (Val (Int 0)).
Proof.
  apply (create_post_then_get_post_by_id (Val (Int 2)) "Second"
           "Another post, long enough to be published too." "Travel" sample).
  - constructor.
  - intros r Hr. cbn in Hr. destruct Hr as [<- | []].
    exists 3. read_cells. split; [reflexivity | reflexivity].
Defined.

(** ** What every database function keeps *)

Section Moves.

Variable R : db -> db -> Prop.
Hypothesis R_refl : forall d, R d d.
Hypothesis R_trans : forall d1 d2 d3, R d1 d2 -> R d2 d3 -> R d1 d3.

Lemma moves_ret {A} (x : A) : moves R (ret x).
Proof. intros w. apply R_refl. Qed.

Lemma moves_raise {A} e : moves R (@raise A e).
Proof. intros w. apply R_refl. Qed.

Lemma moves_bind {A B} (m : M A) (k : A -> M B) :
  moves R m -> (forall x, moves R (k x)) -> moves R (bind m k).
Proof.
  intros Hm Hk w. unfold bind. specialize (Hm w).
  destruct (m w) as [[e | x] w1]; cbn [snd] in *; [exact Hm |].
  apply (R_trans _ _ _ Hm). apply Hk.
Qed.

Lemma moves_if {A} (b : bool) (m1 m2 : M A) :
  moves R m1 -> moves R m2 -> moves R (if b then m1 else m2).
Proof. destruct b; auto. Qed.

Lemma moves_datetime_now : moves R datetime_now.
Proof. intros w. apply R_refl. Qed.

Lemma moves_getitem r k : moves R (getitem r k).
Proof. unfold getitem. destruct (r !! k); [apply moves_ret | apply moves_raise]. Qed.

Lemma moves_py_add v n : moves R (py_add v n).
Proof.
  unfold py_add. destruct v as [[| a | s] | o];
    first [apply moves_ret | apply moves_raise].
Qed.

Lemma moves_index {A} (l : list A) i : moves R (index l i).
Proof. unfold index. destruct (nth_error l i); [apply moves_ret | apply moves_raise]. Qed.

Lemma moves_map_m {A B} (f : A -> M B) (l : list A) :
  (forall x, moves R (f x)) -> moves R (map_m f l).
Proof.
  intros Hf. induction l as [| x l IH]; cbn [map_m]; [apply moves_ret |].
  apply moves_bind; [apply Hf | intros y].
  apply moves_bind; [exact IH | intros ys; apply moves_ret].
Qed.

Lemma moves_try_Exception {A} (body : M A) (d : A) :
  moves R body -> moves R (try_except_Exception body (fun _ => ret d)).
Proof.
  intros Hb w. specialize (Hb w). unfold try_except_Exception.
  destruct (body w) as [[e | x] w1]; cbn [snd] in *; [| exact Hb].
  destruct (is_Exception e); exact Hb.
Qed.

Lemma moves_try {A} (body : M A) (d : A) :
  moves R body -> moves R (try_except body (fun _ => ret d)).
Proof.
  intros Hb w. specialize (Hb w). unfold try_except.
  destruct (body w) as [[e | x] w1]; exact Hb.
Qed.

(** A request moves the store as its verb does, if it goes through. *)
Lemma moves_execute q :
  (forall d rows,
      get_table (q_table q) d = Some rows ->
      match q_verb q with
      | Select _ _ => True
      | Insert r =>
          violates_unique (q_table q) r rows = false ->
          R d (bump_seq (set_table (q_table q)
                                   (rows ++ [<["id" := Val (Int (seq d))]> r]) d))
      | Insert_many rs =>
          forall rows' new,
            place (q_table q) (seq d) rs rows = Some (rows', new) ->
            R d (advance_seq (Z.of_nat (length rs)) (set_table (q_table q) rows' d))
      | Update patch =>
          R d (set_table (q_table q)
                 (map (fun r => if matches (q_conds q) r then patch ∪ r else r) rows) d)
      | Delete =>
          R d (set_table (q_table q)
                 (List.filter (fun r => negb (matches (q_conds q) r)) rows) d)
      end) ->
  moves R (execute q).
Proof.
  intros H w. rewrite execute_unfold.
  destruct (hd None (faults w)); [apply R_refl |].
  destruct (get_table (q_table q) (store w)) as [rows |] eqn:Ht; [| apply R_refl].
  specialize (H (store w) rows Ht).
  destruct (q_verb q) as [cols exact | r | rs | patch |].
  - unfold run_select. destruct (forallb _ _); apply R_refl.
  - unfold run_insert. destruct (violates_unique _ _ _); [apply R_refl |].
    cbn. apply H. reflexivity.
  - unfold run_insert_many. destruct (place _ _ _ _) as [[rows' new] |] eqn:Hp;
      [| apply R_refl].
    cbn. apply (H rows' new). reflexivity.
  - cbn. exact H.
  - cbn. exact H.
Qed.

End Moves.

Lemma get_table_cases t d rows :
  get_table t d = Some rows ->
  (t = "users" /\ rows = users d) \/ (t = "posts" /\ rows = posts d)
  \/ (t = "comments" /\ rows = comments d) \/ (t = "likes" /\ rows = likes d).
Proof.
  unfold get_table.
  destruct (String.eqb_spec t "users") as [-> | _]; [intros [= <-]; auto |].
  destruct (String.eqb_spec t "posts") as [-> | _]; [intros [= <-]; auto |].
  destruct (String.eqb_spec t "comments") as [-> | _]; [intros [= <-]; auto |].
  destruct (String.eqb_spec t "likes") as [-> | _]; [intros [= <-]; auto 6 | discriminate].
Qed.

Lemma place_appends t rs : forall n rows rows' new,
  place t n rs rows = Some (rows', new) ->
  rows' = rows ++ new
  /\ ids new = map (fun k => Val (Int (n + Z.of_nat k))) (List.seq 0 (length rs)).
Proof.
  induction rs as [| r rs IH]; intros n rows rows' new H; cbn [place] in H.
  - injection H as <- <-. rewrite app_nil_r. split; reflexivity.
  - destruct (violates_unique t r rows); [discriminate |].
    destruct (place t (n + 1) rs (rows ++ [<["id" := Val (Int n)]> r]))
      as [[rows1 new1] |] eqn:Hp; [| discriminate].
    injection H as <- <-. apply IH in Hp as [-> Hids]. split.
    + rewrite <- app_assoc. reflexivity.
    + cbn [ids map length List.seq]. rewrite cell_insert. cbn [String.eqb Ascii.eqb Bool.eqb].
      rewrite Z.add_0_r. f_equal. unfold ids in Hids. rewrite Hids.
      rewrite <- seq_shift, map_map. apply map_ext. intros k. do 2 f_equal. lia.
Qed.

Lemma accounts_kept_refl d : accounts_kept d d.
Proof. exists []. rewrite app_nil_r. reflexivity. Qed.

Lemma accounts_kept_trans d1 d2 d3 :
  accounts_kept d1 d2 -> accounts_kept d2 d3 -> accounts_kept d1 d3.
Proof.
  intros [m1 H1] [m2 H2]. exists (m1 ++ m2). rewrite H2, H1, app_assoc. reflexivity.
Qed.

Lemma account_patched patch r :
  patch !! "id" = None -> patch !! "username" = None ->
  account (patch ∪ r) = account r.
Proof.
  intros Hid Hname. unfold account, cell.
  rewrite !lookup_union, Hid, Hname. destruct (r !! "id"), (r !! "username"); reflexivity.
Qed.

Lemma accounts_kept_same d d' : users d' = users d -> accounts_kept d d'.
Proof. intros H. exists []. rewrite H, app_nil_r. reflexivity. Qed.

Lemma execute_spares_accounts q :
  spares_accounts q = true -> moves accounts_kept (execute q).
Proof.
  intros Hsafe. apply moves_execute; [apply accounts_kept_refl |].
  intros d rows Ht. unfold spares_accounts in Hsafe.
  destruct (get_table_cases _ _ _ Ht) as [[Hu ->] | Hother].
  - rewrite Hu in *. cbn in Hsafe.
    destruct (q_verb q) as [cols exact | r | rs | patch |]; try exact I.
    + intros _. unfold accounts_kept. cbn. eexists. rewrite List.map_app. reflexivity.
    + intros rows' new Hp. apply place_appends in Hp as [-> _].
      unfold accounts_kept. cbn. eexists. rewrite List.map_app. reflexivity.
    + apply andb_prop in Hsafe as [H1 H2].
      apply bool_decide_eq_true_1 in H1, H2.
      unfold accounts_kept. cbn. exists []. rewrite app_nil_r, List.map_map.
      apply List.map_ext. intros r.
      destruct (matches (q_conds q) r); [apply account_patched; assumption | reflexivity].
    + discriminate.
  - assert (Hsame : forall rows', users (set_table (q_table q) rows' d) = users d).
    { intros rows'. destruct Hother as [[-> _] | [[-> _] | [-> _]]]; reflexivity. }
    destruct (q_verb q) as [cols exact | r | rs | patch |]; try exact I; intros;
      apply accounts_kept_same; cbn; apply Hsame.
Qed.

Ltac moves_body Hrefl Htrans Hexec :=
  cbv zeta;
  repeat first
    [ match goal with
      | |- moves _ (execute _) => apply Hexec; reflexivity
      end
    | apply moves_ret; exact Hrefl
    | apply moves_getitem; exact Hrefl
    | apply moves_py_add; exact Hrefl
    | apply moves_index; exact Hrefl
    | apply moves_datetime_now; exact Hrefl
    | apply moves_try_Exception
    | apply moves_try
    | apply moves_if
    | apply moves_map_m; [exact Hrefl | exact Htrans | intros ?]
    | match goal with
      | |- moves _ (bind _ _) => apply moves_bind; [exact Htrans | | intros ?]
      end
    | match goal with
      | |- moves _ (match ?l with [] => _ | _ :: _ => _ end) => destruct l
      end ].

Lemma perform_keeps_accounts c : moves accounts_kept (perform c).
Proof.
  destruct c; cbn [perform];
    unfold create_user, authenticate_user, get_user_by_id, update_user_profile,
      change_password, create_post, get_all_posts, get_post_by_id, get_user_posts,
      update_post, delete_post, increment_view_count, add_comment, get_comments,
      add_like, remove_like, get_like_count, check_user_liked, get_comment_count,
      get_total_users, get_total_posts, add_sample_data, sample_user, sample_post,
      get_user_by_id;
    moves_body accounts_kept_refl accounts_kept_trans execute_spares_accounts.
Qed.

Lemma for_each_moves R (cs : list db_call) :
  (forall d, R d d) -> (forall d1 d2 d3, R d1 d2 -> R d2 d3 -> R d1 d3) ->
  (forall c, moves R (perform c)) ->
  moves R (for_each cs perform).
Proof.
  intros Hrefl Htrans Hc. induction cs as [| c cs IH]; cbn [for_each].
  - apply moves_ret. exact Hrefl.
  - apply moves_bind; [exact Htrans | apply Hc | intros _; exact IH].
Qed.

(** Accounts are never deleted and never renamed: whatever database
    functions are called, in whatever order and whichever of their
    requests fail, the user rows of before are still there, in their
    places, each with its id and its username. *)
Theorem accounts_are_kept (cs : list db_call) (w : world) :
  accounts_kept (store w) (store (after (for_each cs perform) w)).
Proof.
  apply (for_each_moves accounts_kept cs accounts_kept_refl accounts_kept_trans
           perform_keeps_accounts).
Qed.

(** *** Ids *)

Lemma get_set_table t rows' d t' rows0 :
  get_table t d = Some rows0 ->
  get_table t' (set_table t rows' d)
  = if String.eqb t' t then Some rows' else get_table t' d.
Proof.
  intros Ht.
  destruct (get_table_cases _ _ _ Ht) as [[-> _] | [[-> _] | [[-> _] | [-> _]]]];
    unfold get_table, set_table; cbn [String.eqb Ascii.eqb Bool.eqb users posts comments likes];
    destruct (String.eqb_spec t' "users") as [-> | ?]; try reflexivity;
    destruct (String.eqb_spec t' "posts") as [-> | ?]; try reflexivity;
    destruct (String.eqb_spec t' "comments") as [-> | ?]; try reflexivity;
    destruct (String.eqb_spec t' "likes") as [-> | ?]; reflexivity.
Qed.

Lemma get_table_advance_seq t k d : get_table t (advance_seq k d) = get_table t d.
Proof. reflexivity. Qed.

Lemma seq_set_table t rows d : seq (set_table t rows d) = seq d.
Proof.
  unfold set_table. repeat (destruct (String.eqb t _); [reflexivity |]). reflexivity.
Qed.

Lemma views_le_refl x : views_le x x.
Proof. left. reflexivity. Qed.

Lemma views_le_trans x y z : views_le x y -> views_le y z -> views_le x z.
Proof.
  intros [-> | (a & b & -> & -> & Hab)] [<- | (b' & c & E & -> & Hbc)].
  - left. reflexivity.
  - right. eauto.
  - right. exists a, b. auto.
  - injection E as <-. right. exists a, c. repeat split. lia.
Qed.

Lemma table_ok_later d d' rows :
  seq d <= seq d' -> table_ok d rows -> table_ok d' rows.
Proof.
  intros Hseq [Hfresh Hnodup]. split; [| exact Hnodup].
  intros r Hr. destruct (Hfresh r Hr) as (n & Hid & Hn). exists n. split; [exact Hid | lia].
Qed.

Lemma views_kept_refl d : views_kept d d.
Proof.
  intros Hwf. split; [exact Hwf |]. split; [lia |].
  intros p' n Hp' Hid _. exists p'. auto using views_le_refl.
Qed.

Lemma views_kept_trans d1 d2 d3 :
  views_kept d1 d2 -> views_kept d2 d3 -> views_kept d1 d3.
Proof.
  intros H12 H23 Hwf1.
  destruct (H12 Hwf1) as (Hwf2 & Hs12 & Hv12).
  destruct (H23 Hwf2) as (Hwf3 & Hs23 & Hv23).
  split; [exact Hwf3 |]. split; [lia |].
  intros p3 n Hp3 Hid Hn.
  destruct (Hv23 p3 n Hp3 Hid ltac:(lia)) as (p2 & Hp2 & Hid2 & Hle23).
  destruct (Hv12 p2 n Hp2 Hid2 Hn) as (p1 & Hp1 & Hid1 & Hle12).
  exists p1. eauto using views_le_trans.
Qed.

Lemma views_kept_step d d' t rows rows' :
  get_table t d = Some rows ->
  seq d <= seq d' ->
  (forall t', get_table t' d' = if String.eqb t' t then Some rows' else get_table t' d) ->
  (well_formed d -> table_ok d' rows') ->
  (well_formed d ->
   forall p' n,
      In p' rows' -> cell p' "id" = Val (Int n) -> n < seq d ->
      exists p, In p rows /\ cell p "id" = Val (Int n)
                /\ views_le (cell p "views") (cell p' "views")) ->
  views_kept d d'.
Proof.
  intros Ht Hseq Hget Hok Hviews Hwf. split; [| split; [exact Hseq |]].
  - intros t' rows1 H1. rewrite Hget in H1.
    destruct (String.eqb t' t).
    + injection H1 as <-. apply Hok. exact Hwf.
    + apply (table_ok_later d); [exact Hseq |]. apply (Hwf t'). exact H1.
  - intros p' n Hp' Hid Hn.
    assert (Hposts : get_table "posts" d' = Some (posts d')) by reflexivity.
    rewrite Hget in Hposts.
    destruct (String.eqb_spec "posts" t) as [<- | _].
    + injection Hposts as Hposts. injection Ht as <-.
      apply Hviews; [exact Hwf | rewrite Hposts; exact Hp' | exact Hid | exact Hn].
    + injection Hposts as Hposts. rewrite <- Hposts in Hp'.
      exists p'. auto using views_le_refl.
Qed.

Lemma ids_app rows rows' : ids (rows ++ rows') = ids rows ++ ids rows'.
Proof. apply List.map_app. Qed.

Lemma fresh_not_in d rows n :
  fresh_table d rows -> seq d <= n -> ~ In (Val (Int n)) (ids rows).
Proof.
  intros Hfresh Hn Hin. apply in_map_iff in Hin as (r & Hid & Hr).
  destruct (Hfresh r Hr) as (m & Hid' & Hm). rewrite Hid in Hid'.
  injection Hid' as <-. lia.
Qed.

Lemma NoDup_ids_filter (f : row -> bool) rows :
  List.NoDup (ids rows) -> List.NoDup (ids (List.filter f rows)).
Proof.
  induction rows as [| r rows IH]; cbn; [trivial |].
  intros H. apply List.NoDup_cons_iff in H as [Hnotin Hnd].
  destruct (f r); [| auto].
  cbn. apply List.NoDup_cons_iff. split; [| auto].
  intros Hin. apply Hnotin. apply in_map_iff in Hin as (r' & Hid & Hr').
  apply filter_In in Hr' as [Hr' _]. apply in_map_iff. eauto.
Qed.

Lemma cell_union_none (patch r : row) c :
  patch !! c = None -> cell (patch ∪ r) c = cell r c.
Proof.
  intros H. unfold cell. rewrite lookup_union, H. destruct (r !! c); reflexivity.
Qed.

Lemma ids_patched patch (hit : row -> bool) rows :
  patch !! "id" = None ->
  ids (map (fun r => if hit r then patch ∪ r else r) rows) = ids rows.
Proof.
  intros H. unfold ids. rewrite List.map_map. apply List.map_ext. intros r.
  destruct (hit r); [apply cell_union_none; exact H | reflexivity].
Qed.

Lemma NoDup_map_injective {A B} (f : A -> B) (l : list A) :
  (forall x y, f x = f y -> x = y) -> List.NoDup l -> List.NoDup (map f l).
Proof.
  intros Hinj. induction l as [| a l IH]; intros H; cbn; [constructor |].
  apply List.NoDup_cons_iff in H as [Hnotin Hnd].
  apply List.NoDup_cons_iff. split; [| auto].
  intros Hin. apply in_map_iff in Hin as (b & Hb & Hin).
  apply Hinj in Hb as ->. contradiction.
Qed.

Lemma NoDup_fresh_run n k :
  List.NoDup (map (fun i => Val (Int (n + Z.of_nat i))) (List.seq 0 k)).
Proof.
  apply NoDup_map_injective; [| apply List.seq_NoDup].
  intros i j E. injection E as E. lia.
Qed.

Lemma NoDup_app_disjoint {A} (l k : list A) :
  List.NoDup l -> List.NoDup k -> (forall x, In x k -> ~ In x l) -> List.NoDup (l ++ k).
Proof.
  intros Hl Hk Hdis. induction l as [| a l IH]; cbn; [exact Hk |].
  apply List.NoDup_cons_iff in Hl as [Hnotin Hl].
  apply List.NoDup_cons_iff. split.
  - intros Hin. apply in_app_or in Hin as [Hin | Hin]; [contradiction |].
    apply (Hdis a Hin). left. reflexivity.
  - apply IH; [exact Hl |]. intros x Hx Hin. apply (Hdis x Hx). right. exact Hin.
Qed.

Lemma table_ok_extended d d' rows new k :
  table_ok d rows ->
  seq d' = seq d + Z.of_nat k ->
  ids new = map (fun i => Val (Int (seq d + Z.of_nat i))) (List.seq 0 k) ->
  table_ok d' (rows ++ new).
Proof.
  intros [Hfresh Hnd] Hseq Hids. split.
  - intros r Hr. apply in_app_or in Hr as [Hr | Hr].
    + destruct (Hfresh r Hr) as (n & Hid & Hn). exists n. split; [exact Hid | lia].
    + assert (Hin : In (cell r "id") (ids new))
        by (apply (in_map (fun r => cell r "id")); exact Hr).
      rewrite Hids in Hin. apply in_map_iff in Hin as (i & Hi & Hin).
      apply in_seq in Hin. exists (seq d + Z.of_nat i). split; [congruence | lia].
  - rewrite ids_app. apply NoDup_app_disjoint; [exact Hnd | |].
    + rewrite Hids. apply NoDup_fresh_run.
    + intros x Hx. rewrite Hids in Hx. apply in_map_iff in Hx as (i & <- & _).
      apply (fresh_not_in d); [exact Hfresh | lia].
Qed.

Lemma new_rows_are_new d rows new k p' n :
  ids new = map (fun i => Val (Int (seq d + Z.of_nat i))) (List.seq 0 k) ->
  In p' (rows ++ new) -> cell p' "id" = Val (Int n) -> n < seq d ->
  exists p, In p rows /\ cell p "id" = Val (Int n)
            /\ views_le (cell p "views") (cell p' "views").
Proof.
  intros Hids Hp' Hid Hn. apply in_app_or in Hp' as [Hp' | Hp'].
  - exists p'. auto using views_le_refl.
  - assert (Hin : In (cell p' "id") (ids new))
      by (apply (in_map (fun r => cell r "id")); exact Hp').
    rewrite Hids, Hid in Hin. apply in_map_iff in Hin as (i & Hi & _).
    injection Hi as Hi. lia.
Qed.

Lemma execute_spares_views q :
  spares_views q = true -> moves views_kept (execute q).
Proof.
  intros Hsafe. apply moves_execute; [apply views_kept_refl |].
  intros d rows Ht. unfold spares_views in Hsafe.
  destruct (q_verb q) as [cols exact | r | rs | patch |]; [exact I | | | |].
  - intros _.
    assert (Hids : ids [<["id" := Val (Int (seq d))]> r]
                   = map (fun i => Val (Int (seq d + Z.of_nat i))) (List.seq 0 1)).
    { cbn. rewrite cell_insert. cbn. rewrite Z.add_0_r. reflexivity. }
    apply (views_kept_step d _ (q_table q) rows
             (rows ++ [<["id" := Val (Int (seq d))]> r])).
    + exact Ht.
    + cbn. rewrite seq_set_table. lia.
    + intros t'. unfold bump_seq. rewrite get_table_advance_seq.
      apply (get_set_table _ _ _ _ _ Ht).
    + intros Hwf. apply (table_ok_extended d _ rows _ 1 (Hwf _ _ Ht)); [| exact Hids].
      cbn. rewrite seq_set_table. reflexivity.
    + intros _ p' n. apply (new_rows_are_new d rows _ 1 p' n Hids).
  - intros rows' new Hp. apply place_appends in Hp as [-> Hids].
    apply (views_kept_step d _ (q_table q) rows (rows ++ new)).
    + exact Ht.
    + cbn. rewrite seq_set_table. lia.
    + intros t'. rewrite get_table_advance_seq. apply (get_set_table _ _ _ _ _ Ht).
    + intros Hwf. apply (table_ok_extended d _ rows _ (length rs) (Hwf _ _ Ht));
        [| exact Hids].
      cbn. rewrite seq_set_table. reflexivity.
    + intros _ p' n. apply (new_rows_are_new d rows _ (length rs) p' n Hids).
  - apply andb_prop in Hsafe as [H1 H2]. apply bool_decide_eq_true_1 in H1, H2.
    apply (views_kept_step d _ (q_table q) rows
             (map (fun r => if matches (q_conds q) r then patch ∪ r else r) rows)).
    + exact Ht.
    + rewrite seq_set_table. lia.
    + intros t'. apply (get_set_table _ _ _ _ _ Ht).
    + intros Hwf. destruct (Hwf _ _ Ht) as [Hfresh Hnd]. split.
      * intros r' Hr'. apply in_map_iff in Hr' as (r & <- & Hr).
        destruct (Hfresh r Hr) as (n & Hid & Hn). exists n.
        rewrite seq_set_table. split; [| exact Hn].
        destruct (matches (q_conds q) r); [rewrite cell_union_none by exact H1 |]; exact Hid.
      * rewrite ids_patched by exact H1. exact Hnd.
    + intros _ p' n Hp' Hid _. apply in_map_iff in Hp' as (r & <- & Hr).
      exists r. split; [exact Hr |].
      destruct (matches (q_conds q) r).
      * rewrite !cell_union_none in * by assumption. auto using views_le_refl.
      * auto using views_le_refl.
  - apply (views_kept_step d _ (q_table q) rows
             (List.filter (fun r => negb (matches (q_conds q) r)) rows)).
    + exact Ht.
    + rewrite seq_set_table. lia.
    + intros t'. apply (get_set_table _ _ _ _ _ Ht).
    + intros Hwf. destruct (Hwf _ _ Ht) as [Hfresh Hnd]. split.
      * intros r Hr. apply filter_In in Hr as [Hr _].
        destruct (Hfresh r Hr) as (n & Hid & Hn). exists n.
        rewrite seq_set_table. auto.
      * apply NoDup_ids_filter. exact Hnd.
    + intros _ p' n Hp' Hid _. apply filter_In in Hp' as [Hp' _].
      exists p'. auto using views_le_refl.
Qed.

(** *** View counts *)

Lemma increment_view_count_unfold (post_id : value) (w : world) :
  increment_view_count post_id w
  = match hd None (faults w) with
    | Some _ => (inr tt, pop w)
    | None =>
        match List.filter (matches [Eq "id" post_id]) (posts (store w)) with
        | [] => (inr tt, pop w)
        | y :: _ =>
            match cell y "views" with
            | Val (Int v) =>
                match hd None (faults (pop w)) with
                | Some _ => (inr tt, pop (pop w))
                | None =>
                    (inr tt,
                     with_store
                       (set_table "posts"
                          (map (fun r => if matches [Eq "id" post_id] r
                                         then dict [("views", Val (Int (v + 1)))] ∪ r
                                         else r)
                               (posts (store w)))
                          (store w))
                       (pop (pop w)))
                end
            | _ => (inr tt, pop w)
            end
        end
    end.
Proof.
  unfold increment_view_count, try_except, bind.
  rewrite execute_unfold. cbn.
  destruct (hd None (faults w)) as [f |]; [reflexivity |].
  unfold run_select. cbn. rewrite ordered_none.
  destruct (List.filter (matches [Eq "id" post_id]) (posts (store w))) as [| y rest];
    [reflexivity |].
  cbn. rewrite getitem_project by plain_columns. cbn.
  destruct (cell y "views") as [[| v | s] | o]; try reflexivity.
  cbn. rewrite execute_unfold. cbn.
  destruct (hd None (tl (faults w))) as [f |]; reflexivity.
Qed.

Lemma same_id_same_row rows (r r' : row) :
  List.NoDup (ids rows) -> In r rows -> In r' rows -> cell r "id" = cell r' "id" -> r = r'.
Proof.
  induction rows as [| a rows IH]; intros Hnd Hr Hr' Hid; [destruct Hr |].
  cbn in Hnd. apply List.NoDup_cons_iff in Hnd as [Hnotin Hnd].
  destruct Hr as [-> | Hr], Hr' as [-> | Hr'].
  - reflexivity.
  - exfalso. apply Hnotin. rewrite Hid. apply (in_map (fun r => cell r "id")). exact Hr'.
  - exfalso. apply Hnotin. rewrite <- Hid. apply (in_map (fun r => cell r "id")). exact Hr.
  - apply IH; assumption.
Qed.

Lemma increment_view_count_keeps_views post_id :
  moves views_kept (increment_view_count post_id).
Proof.
  intros w. rewrite increment_view_count_unfold.
  destruct (hd None (faults w)); [apply views_kept_refl |].
  destruct (List.filter _ _) as [| y rest] eqn:Hy; [apply views_kept_refl |].
  apply filter_head in Hy as [Hy Hmy]. apply matches_one_true in Hmy as [Hyid Hnn].
  destruct (cell y "views") as [[| v | s] | o] eqn:Hv; try apply views_kept_refl.
  destruct (hd None (faults (pop w))); [apply views_kept_refl |].
  cbn [snd store with_store].
  apply (views_kept_step (store w) _ "posts" (posts (store w))
           (map (fun r => if matches [Eq "id" post_id] r
                          then dict [("views", Val (Int (v + 1)))] ∪ r else r)
                (posts (store w)))).
  - reflexivity.
  - reflexivity.
  - intros t'. apply (get_set_table "posts" _ _ _ (posts (store w))). reflexivity.
  - intros Hwf. destruct (Hwf "posts" _ Logic.eq_refl) as [Hfresh Hnd]. split.
    + intros r' Hr'. apply in_map_iff in Hr' as (r & <- & Hr).
      destruct (Hfresh r Hr) as (n & Hid & Hn). exists n. split; [| exact Hn].
      destruct (matches [Eq "id" post_id] r); [| exact Hid].
      rewrite cell_patched. exact Hid.
    + rewrite ids_patched by reflexivity. exact Hnd.
  - intros Hwf p' n Hp' Hid Hn. apply in_map_iff in Hp' as (r & <- & Hr).
    destruct (Hwf "posts" _ Logic.eq_refl) as [_ Hnd].
    exists r. split; [exact Hr |].
    destruct (matches [Eq "id" post_id] r) eqn:Hm.
    + rewrite cell_union_none in Hid by reflexivity. split; [exact Hid |].
      apply matches_one_true in Hm as [Hrid _].
      assert (r = y) as -> by (apply (same_id_same_row (posts (store w))); congruence).
      rewrite cell_patched, Hv.
      destruct (decide ("views" = "views")); [| congruence].
      right. exists v, (v + 1). split; [reflexivity | split; [reflexivity | lia]].
    + auto using views_le_refl.
Qed.

Lemma perform_keeps_views c : moves views_kept (perform c).
Proof.
  destruct c; cbn [perform];
    lazymatch goal with
    | |- moves _ (increment_view_count _) => apply increment_view_count_keeps_views
    | |- _ =>
      unfold create_user, authenticate_user, get_user_by_id, update_user_profile,
        change_password, create_post, get_all_posts, get_post_by_id, get_user_posts,
        update_post, delete_post, add_comment, get_comments,
        add_like, remove_like, get_like_count, check_user_liked, get_comment_count,
        get_total_users, get_total_posts, add_sample_data, sample_user, sample_post,
        get_user_by_id;
      moves_body views_kept_refl views_kept_trans execute_spares_views
    end.
Qed.

(** The store stays well formed: whatever database functions are
    called, in whatever order and whichever of their requests fail, the
    ids stay the store's own, one row each in its table. The program
    never writes an id. *)
Theorem store_stays_well_formed (cs : list db_call) (w : world) :
  well_formed (store w) ->
  well_formed (store (after (for_each cs perform) w)).
Proof.
  intros Hwf.
  apply (for_each_moves views_kept cs views_kept_refl views_kept_trans
           perform_keeps_views w Hwf).
Qed.

(** View counts never go down: in a well-formed store, whatever
    database functions are called, in whatever order and whichever of
    their requests fail, a post that is still there has at least the
    views it had. *)
Theorem views_never_go_down (cs : list db_call) (w : world) (p p' : row) (v : Z) :
  well_formed (store w) ->
  In p (posts (store w)) ->
  cell p "views" = Val (Int v) ->
  In p' (posts (store (after (for_each cs perform) w))) ->
  cell p' "id" = cell p "id" ->
  exists v', cell p' "views" = Val (Int v') /\ v <= v'.
Proof.
  intros Hwf Hp Hv Hp' Hid.
  destruct (for_each_moves views_kept cs views_kept_refl views_kept_trans
              perform_keeps_views w Hwf) as (_ & _ & Hviews).
  destruct (Hwf "posts" _ Logic.eq_refl) as [Hfresh Hnd].
  destruct (Hfresh p Hp) as (n & Hn & Hlt).
  destruct (Hviews p' n Hp' ltac:(congruence) Hlt) as (p0 & Hp0 & Hid0 & Hle).
  assert (p0 = p) as -> by (apply (same_id_same_row (posts (store w))); congruence).
  destruct Hle as [<- | (a & b & Ha & Hb & Hab)].
  - exists v. split; [exact Hv | lia].
  - exists b. split; [exact Hb |]. rewrite Hv in Ha. injection Ha as ->. exact Hab.
Qed.

Ltac distinct_ids :=
  unfold ids; cbn [map]; read_cells;
  repeat (apply List.NoDup_cons; [cbn; intuition discriminate |]); apply List.NoDup_nil.

Ltac sample_rows Hr :=
  cbn in Hr;
  repeat (destruct Hr as [<- | Hr];
          [eexists; split; [read_cells; reflexivity | reflexivity] |]);
  destruct Hr.

Lemma sample_well_formed : well_formed sample_db.
Proof.
  intros t rows Ht.
  destruct (get_table_cases _ _ _ Ht) as [[_ ->] | [[_ ->] | [[_ ->] | [_ ->]]]];
    (split; [intros r Hr; sample_rows Hr | distinct_ids]).
Qed.

Lemma store_stays_well_formed_sample :
  well_formed (store sample)
  /\ well_formed (store (after (for_each sample_calls perform) sample)).
Proof.
  split; [exact sample_well_formed |].
  apply (store_stays_well_formed sample_calls sample). exact sample_well_formed.
Defined.

Lemma views_never_go_down_sample :
  exists v', cell sample_post_later "views" = Val (Int v') /\ 5 <= v'.
Proof.
  apply (views_never_go_down sample_calls sample sample_post_row sample_post_later 5).
  - exact sample_well_formed.
  - left. reflexivity.
  - vm_compute. reflexivity.
  - vm_compute. left. reflexivity.
  - vm_compute. reflexivity.
Defined.

Example sample_calls_views :
  cell sample_post_later "views" = Val (Int 7)
  /\ cell sample_post_later "title" = Val (Str "Hello again")
  /\ length (users (store (after (for_each sample_calls perform) sample))) = 2%nat.
Proof. vm_compute. repeat split. Qed.

(** ** Lists in order *)

Lemma insert_sorted_perm le r rs : Permutation (insert_sorted le r rs) (r :: rs).
Proof.
  induction rs as [| a rs IH]; cbn; [reflexivity |].
  destruct (le r a); [reflexivity |].
  rewrite IH. apply perm_swap.
Qed.

Lemma sort_rows_perm le rs : Permutation (sort_rows le rs) rs.
Proof.
  induction rs as [| r rs IH]; cbn; [reflexivity |].
  rewrite insert_sorted_perm. constructor. exact IH.
Qed.

Lemma insert_sorted_in_order le r rs :
  (forall a b, le a b = false -> le b a = true) ->
  in_order le rs -> in_order le (insert_sorted le r rs).
Proof.
  intros Htotal. induction rs as [| a rs IH]; intros Hs; cbn [insert_sorted]; [exact I |].
  destruct (le r a) eqn:Hra.
  - split; assumption.
  - apply Htotal in Hra.
    destruct rs as [| b rs]; cbn [insert_sorted] in *.
    + split; [exact Hra | exact I].
    + destruct Hs as [Hab Hs]. specialize (IH Hs).
      destruct (le r b); split; assumption.
Qed.

Lemma sort_rows_in_order le rs :
  (forall a b, le a b = false -> le b a = true) ->
  in_order le (sort_rows le rs).
Proof.
  intros Htotal. induction rs as [| r rs IH]; cbn; [exact I |].
  apply insert_sorted_in_order; assumption.
Qed.

Lemma comes_before_total ascending x y :
  comes_before ascending x y = false -> comes_before ascending y x = true.
Proof.
  destruct x as [[| a | s] | o], y as [[| b | t] | o'], ascending; cbn;
    try reflexivity; try discriminate.
  - intros H. apply Z.leb_gt in H. apply Z.leb_le. lia.
  - intros H. apply Z.leb_gt in H. apply Z.leb_le. lia.
  - intros H. destruct (String.leb_total s t) as [E | E]; congruence.
  - intros H. destruct (String.leb_total s t) as [E | E]; congruence.
Qed.

Lemma ordered_perm o rs : Permutation (ordered o rs) rs.
Proof.
  unfold ordered. destruct o as [[c ascending] |]; [apply sort_rows_perm | reflexivity].
Qed.

Lemma ordered_in_order c ascending rs :
  in_order (fun a b => comes_before ascending (cell a c) (cell b c))
           (ordered (Some (c, ascending)) rs).
Proof.
  unfold ordered. apply sort_rows_in_order. intros a b. apply comes_before_total.
Qed.
